(** * Velocity: a shallow embedding of the chat-bot's session machine

    The development follows the Python sources:
    - [utils.py]: [safe_filename], [zip_paths], [detect_content_type_from_name],
      the lines of [text_to_pdf];
    - [storage.py]: the per-user directories and [cleanup_old];
    - [features_file.py], [features_download.py]: the blocking operations and
      [guess_downloader];
    - [bot.py] (polling variant) and [app.py] (web-hook variant): the
      per-user session dictionaries and the handlers.

    A Python [str] is a sequence of Unicode code points, so a string is a
    list of code points here; dictionaries keyed by user id are [gmap]s. *)

From Stdlib Require Import ZArith NArith Ascii String DecimalString DecimalZ
  DecimalPos Lia.
From stdpp Require Import gmap strings list.

Open Scope N_scope.

(** ** Python strings *)

Abbreviation str := (list N).

(** A source literal made of ASCII characters, as a Python [str]. *)
Definition lit (s : string) : str :=
  (fun a => N_of_ascii a) <$> list_ascii_of_string s.

(** [str.isspace] on one code point: the ASCII white space (including the
    separators 0x1C-0x1F) and the Unicode [White_Space] characters.  Both
    [str.strip()] and the regular-expression class [\s] on a [str] pattern
    use this predicate. *)
Definition isspace (c : N) : bool :=
  ((9 <=? c) && (c <=? 13)) || ((28 <=? c) && (c <=? 32))
  || (c =? 0x85) || (c =? 0xA0) || (c =? 0x1680)
  || ((0x2000 <=? c) && (c <=? 0x200A))
  || (c =? 0x2028) || (c =? 0x2029) || (c =? 0x202F)
  || (c =? 0x205F) || (c =? 0x3000).

Fixpoint lstrip (s : str) : str :=
  match s with
  | [] => []
  | c :: t => if isspace c then lstrip t else s
  end.

Fixpoint rstrip (s : str) : str :=
  match s with
  | [] => []
  | c :: t =>
      match rstrip t with
      | [] => if isspace c then [] else [c]
      | r => c :: r
      end
  end.

(** [s.strip()] *)
Definition strip (s : str) : str := rstrip (lstrip s).

(** [s.replace(a, b)] for one-character [a] and [b]. *)
Definition replace_char (a b : N) (s : str) : str :=
  (fun c => if c =? a then b else c) <$> s.

(** ** utils.py: safe_filename *)

(** The character class of the first substitution: the nine characters
    less-than, greater-than, colon, double quote, slash, backslash, bar,
    question mark, star, and the range 0x00-0x1F. *)
Definition illegal (c : N) : bool :=
  (c <=? 0x1F)
  || (c =? 60) || (c =? 62) || (c =? 58) || (c =? 34) || (c =? 47)
  || (c =? 92) || (c =? 124) || (c =? 63) || (c =? 42).

(** [re.sub] of that class by an underscore. *)
Definition sub_illegal (s : str) : str :=
  (fun c => if illegal c then 95 else c) <$> s.

(** [re.sub] of [\s+] by one space: scanning from the left, each maximal run of
    white space is replaced by one space.  [in_run] tells that the previous
    character belonged to a run already replaced. *)
Fixpoint sub_ws (in_run : bool) (s : str) : str :=
  match s with
  | [] => []
  | c :: t =>
      if isspace c then
        if in_run then sub_ws true t else 32 :: sub_ws true t
      else c :: sub_ws false t
  end.

(** The name before the final cut to 180 characters. *)
Definition safe_filename_body (name : str) : str :=
  let name := replace_char 10 32 (strip name) in
  let name := sub_illegal name in
  sub_ws false name.

Definition safe_filename (name : str) : str :=
  let name := safe_filename_body name in
  if (180 <? N.of_nat (length name)) then take 180 name else name.

(** ** More of the [str] interface *)

(** [s.startswith(p)] *)
Fixpoint startswith (p s : str) : bool :=
  match p, s with
  | [], _ => true
  | a :: p', c :: s' => (c =? a) && startswith p' s'
  | _ :: _, [] => false
  end.

(** [p in s] for strings: [p] occurs as a contiguous run of [s]. *)
Fixpoint contains (p s : str) : bool :=
  startswith p s || match s with [] => false | _ :: t => contains p t end.

(** [s.replace(p, r)] for a non-empty [p]: the occurrences of [p] are
    replaced from the left, without overlap.  [skip] counts the characters
    of the occurrence just replaced that are still to be passed over. *)
Fixpoint replace_from (p r : str) (skip : nat) (s : str) : str :=
  match s with
  | [] => []
  | c :: t =>
      match skip with
      | S k => replace_from p r k t
      | O => if startswith p s
             then r ++ replace_from p r (length p - 1) t
             else c :: replace_from p r 0 t
      end
  end.
Definition replace (p r s : str) : str := replace_from p r 0 s.

(** [s.split(sep, 1)]: [None] when [sep] does not occur (the result then has
    one element), else the text before and after the first [sep]. *)
Fixpoint split1 (sep : N) (s : str) : option (str * str) :=
  match s with
  | [] => None
  | c :: t =>
      if c =? sep then Some ([], t)
      else match split1 sep t with
           | Some (a, b) => Some (c :: a, b)
           | None => None
           end
  end.

(** [s.split(sep)] for a one-character separator. *)
Fixpoint split (sep : N) (s : str) : list str :=
  match s with
  | [] => [[]]
  | c :: t =>
      match split sep t with
      | [] => [[c]]
      | w :: ws => if c =? sep then [] :: w :: ws else (c :: w) :: ws
      end
  end.

(** [sep.join(l)] *)
Fixpoint join (sep : str) (l : list str) : str :=
  match l with
  | [] => []
  | [w] => w
  | w :: ws => w ++ sep ++ join sep ws
  end.

(** [s.rfind(c)]: the index of the last [c] in [s]. *)
Fixpoint rfind (c : N) (s : str) : option nat :=
  match s with
  | [] => None
  | d :: t =>
      match rfind c t with
      | Some i => Some (S i)
      | None => if d =? c then Some O else None
      end
  end.

(** [str.lower()] on one code point.  Upper-case ASCII letters are mapped
    to lower case; of the other code points only U+0130 and U+212A have a
    lower-case form containing an ASCII letter, and they are mapped as
    Python does; the remaining ones are left in place, their lower-case
    forms are outside ASCII as well and every comparison below is against
    an ASCII literal. *)
Definition lower_char (c : N) : str :=
  if (65 <=? c) && (c <=? 90) then [c + 32]
  else if c =? 0x130 then [0x69; 0x307]
  else if c =? 0x212A then [0x6B]
  else [c].

Definition lower (s : str) : str := s ≫= lower_char.

(** ** features_download.py: guess_downloader *)

Definition guess_downloader (url : str) : str :=
  let u := lower (strip url) in
  if contains (lit "pixeldrain.com") u then lit "pixeldrain"
  else if contains (lit "drive.google.com") u then lit "gdrive"
  else if contains (lit "mega.nz") u then lit "mega"
  else if contains (lit "youtu") u || contains (lit "youtube.com") u
       then lit "youtube"
  else lit "unknown".

(** ** bot.py / app.py: PROXY_RE *)

(** Case-insensitive match of one lower-case pattern letter, as the
    regular-expression engine does it for a [str] pattern compiled with
    [re.I]: the subject character is lowered and compared; the letter s
    also matches U+017F (long s), and U+212A (Kelvin sign) lowers to k. *)
Definition re_tolower (c : N) : N :=
  if (65 <=? c) && (c <=? 90) then c + 32
  else if c =? 0x212A then 0x6B
  else if c =? 0x130 then 0x69
  else c.

Definition ci_char (a c : N) : bool :=
  if (97 <=? a) && (a <=? 122)
  then (re_tolower c =? a) || ((a =? 0x73) && (c =? 0x17F))
  else c =? a.

Fixpoint ci_startswith (p s : str) : bool :=
  match p, s with
  | [], _ => true
  | a :: p', c :: s' => ci_char a c && ci_startswith p' s'
  | _ :: _, [] => false
  end.

(** [PROXY_RE.match(p)] is not [None]: the pattern is anchored at the start
    and is the alternation [http|https|socks5] followed by [://]. *)
Definition PROXY_RE_match (p : str) : bool :=
  ci_startswith (lit "http://") p
  || ci_startswith (lit "https://") p
  || ci_startswith (lit "socks5://") p.

(** ** pathlib paths (POSIX flavour) *)

(** A path is its tuple of parts; an absolute path starts with the part
    made of slashes. *)
Abbreviation path := (list str).

Definition is_root (w : str) : bool := startswith [47] w.

Definition is_absolute (p : path) : bool :=
  match p with w :: _ => is_root w | [] => false end.

(** [Path(s)]: empty components and dots are dropped; one leading slash, or
    three and more, make the root [/], exactly two make the root [//]. *)
Definition Path (s : str) : path :=
  let comps := filter (fun w => w ≠ [] ∧ w ≠ [46]) (split 47 s) in
  match s with
  | 47 :: 47 :: 47 :: _ => [47] :: comps
  | 47 :: 47 :: _ => [47; 47] :: comps
  | 47 :: _ => [47] :: comps
  | _ => comps
  end.

(** [p / s] *)
Definition path_div (p : path) (s : str) : path :=
  let q := Path s in if is_absolute q then q else p ++ q.

(** [str(p)] *)
Definition path_str (p : path) : str :=
  match p with
  | [] => [46]
  | w :: ws => if is_root w then w ++ join [47] ws else join [47] p
  end.

(** The parts after the root. *)
Definition path_tail (p : path) : list str :=
  match p with
  | w :: ws => if is_root w then ws else p
  | [] => []
  end.

(** [p.parent]: a path without tail is its own parent. *)
Definition path_parent (p : path) : path :=
  match path_tail p with
  | [] => p
  | _ => removelast p
  end.

(** [p.name] *)
Definition path_name (p : path) : str := List.last (path_tail p) [].

(** [p.suffix] and [p.stem]: the name is cut at its last dot unless this dot
    is the first or the last character. *)
Definition dot_index (name : str) : option nat :=
  match rfind 46 name with
  | Some i => if bool_decide (0 < i < length name - 1)%nat then Some i else None
  | None => None
  end.

Definition path_suffix (p : path) : str :=
  match dot_index (path_name p) with
  | Some i => drop i (path_name p)
  | None => []
  end.

Definition path_stem (p : path) : str :=
  match dot_index (path_name p) with
  | Some i => take i (path_name p)
  | None => path_name p
  end.

(** [sub.relative_to(other)]: [None] stands for the [ValueError] raised
    when [other] is not a prefix of [sub]. *)
Fixpoint relative_to (sub other : path) : option path :=
  match other, sub with
  | [], _ => Some sub
  | a :: other', b :: sub' =>
      if bool_decide (a = b) then relative_to sub' other' else None
  | _ :: _, [] => None
  end.

(** [p.with_name(name)]: [None] stands for the [ValueError] raised on an
    invalid name or on a path without name. *)
Definition with_name (p : path) (name : str) : option path :=
  if bool_decide (name = []) || contains [47] name || bool_decide (name = [46])
  then None
  else match path_tail p with
       | [] => None
       | _ => Some (removelast p ++ [name])
       end.

(** ** utils.py: detect_content_type_from_name *)

(** The kind is decided by comparing the suffix with ASCII literals; the
    suffix returned is the one of the lowered name, see [lower_char] for the
    capitals outside ASCII. *)
Definition detect_content_type_from_name (name : str) : str * str :=
  let name_l := strip (lower name) in
  let ext := path_suffix (Path name_l) in
  if bool_decide (ext = lit ".pdf") then (lit "pdf", ext)
  else if bool_decide (ext = lit ".zip") then (lit "zip", ext)
  else if bool_decide (ext ∈ lit <$> [".jpg"; ".jpeg"; ".png"; ".webp"; ".bmp"; ".tiff"]%string)
       then (lit "image", ext)
  else if bool_decide (ext ∈ lit <$> [".txt"; ".log"; ".md"; ".csv"]%string)
       then (lit "text", ext)
  else (lit "unknown", ext).

Close Scope N_scope.

Open Scope Z_scope.

(** ** Formatted texts, exceptions *)

(** An f-string is kept as its pieces. *)
#[warnings="-register-all"]
Inductive frag :=
  | T (s : string)                 (* a literal piece of the source *)
  | V (s : str)                    (* an interpolated string *)
  | D (n : Z)                      (* an interpolated integer *)
  | Mb (n : Z)                     (* human_mb(n) *)
  | Cut (n : nat) (t : list frag). (* t[:n] *)

Abbreviation fstring := (list frag).

Definition NL : frag := V [10%N].

Inductive exn :=
  | ValueError (msg : fstring)
  | RuntimeError (msg : fstring)
  | IndexError (msg : fstring)
  | OtherError (msg : fstring).

(** [str(e)] *)
Definition exn_str (e : exn) : fstring :=
  match e with
  | ValueError m | RuntimeError m | IndexError m | OtherError m => m
  end.

Inductive res (A : Type) :=
  | Ok (a : A)
  | Raise (e : exn).
Arguments Ok {A} a.
Arguments Raise {A} e.

(** ** The chat transport: keyboards, messages, button presses *)

Record keyboard := {
  buttons : list (string * string);   (* text, callback_data *)
  adjust : list nat }.

Definition main_menu_kb : keyboard :=
  {| buttons := [("File management", "menu:file"); ("Downloader", "menu:dl");
                 ("Proxies", "menu:proxy")]%string;
     adjust := [1%nat] |}.

Definition file_menu_kb : keyboard :=
  {| buttons := [("Zip", "file:zip"); ("Unzip", "file:unzip");
                 ("Rename", "file:rename"); ("Text → PDF", "file:text2pdf");
                 ("Image → PDF", "file:img2pdf"); ("Merge PDFs", "file:mergepdf");
                 ("⬅ Back", "menu:back")]%string;
     adjust := [2; 2; 2; 1]%nat |}.

Definition dl_menu_kb : keyboard :=
  {| buttons := [("Auto-detect link", "dl:auto");
                 ("YouTube (video/playlist)", "dl:yt");
                 ("Google Drive", "dl:gdrive"); ("MEGA", "dl:mega");
                 ("PixelDrain", "dl:pixeldrain"); ("⬅ Back", "menu:back")]%string;
     adjust := [1%nat] |}.

Definition proxy_menu_kb : keyboard :=
  {| buttons := [("Set proxy", "proxy:set"); ("Clear proxy", "proxy:clear");
                 ("Show current", "proxy:show"); ("⬅ Back", "menu:back")]%string;
     adjust := [1%nat] |}.

Definition merge_controls_kb : keyboard :=
  {| buttons := [("✅ Done (merge now)", "merge:done");
                 ("🧹 Clear list", "merge:clear");
                 ("❌ Cancel", "merge:cancel")]%string;
     adjust := [1%nat] |}.

Definition imgpdf_controls_kb : keyboard :=
  {| buttons := [("✅ Done (convert now)", "imgpdf:done");
                 ("🧹 Clear list", "imgpdf:clear");
                 ("❌ Cancel", "imgpdf:cancel")]%string;
     adjust := [1%nat] |}.

Record Document := {
  file_name : option str;
  file_size : option Z;
  file_id : str }.

Record Message := {
  from_user : Z;                  (* message.from_user.id *)
  chat : Z;                       (* message.chat.id *)
  text : option str;
  document : option Document }.

Record CallbackQuery := {
  q_from_user : Z;                (* q.from_user.id *)
  q_chat : Z;                     (* q.message.chat.id *)
  data : str }.

(** ** What a handler does to the outside world *)

(** Every call that leaves the handler, in the order of the source.  The
    blocking operations of [features_file.py] and [features_download.py]
    are calls too: the session machine only sees whether they return or
    raise. *)
Inductive call :=
  | Answer (t : fstring) (kb : option keyboard)    (* message.answer(...) *)
  | Reply (t : fstring) (kb : option keyboard)     (* message.reply(...) *)
  | EditText (t : fstring) (kb : option keyboard)  (* q.message.edit_text(...) *)
  | CallbackAnswer                                 (* q.answer() *)
  | Mkdir (p : path)               (* p.mkdir(parents=True, exist_ok=True) *)
  | Exists (p : path)                              (* p.exists() *)
  | IsDir (p : path)                               (* p.is_dir() *)
  | IsZipfile (p : path)                           (* is_zip(p) *)
  | BotDownload (fid : str) (dest : path)  (* bot.get_file, bot.download_file *)
  | SendDocument (chat_id : Z) (p : path) (caption : fstring)
  | ZipPaths (paths : list path) (out_zip : path)
  | UnzipToDir (zip_path out_dir : path)
  | Rename (src dst : path)                        (* src.rename(dst) *)
  | TextToPdf (txt : str) (out_pdf : path)
  | ImagesToPdf (images : list path) (out_pdf : path)
  | MergePdfs (pdfs : list path) (out_pdf : path)
  | DownloadPixeldrain (url : str) (out_dir : path) (proxy : option str)
  | DownloadGdrive (url : str) (out_dir : path) (proxy : option str)
  | DownloadYoutube (url : str) (out_dir : path) (proxy : option str)
  | DownloadMega (url : str) (out_dir : path) (proxy : option str)
  | CleanupOld (base : str) (older_than_hours : Z).

(** How the outside world reacts to a call: the exception it raises if
    any, the answer of a query, the path a download returns. *)
Record env := {
  fails : call → option exn;
  holds : call → bool;
  found : call → path }.

(** ** config.py *)

Record Settings := {
  bot_token : str;
  base_dir : str;
  max_telegram_file_mb : Z;
  max_text_len : Z }.

(** ** The in-memory session store of bot.py / app.py *)

(** A value of a state dictionary: [None] or a string. *)
Inductive pyval :=
  | PNone
  | PStr (s : str).

Global Instance pyval_eq_dec : EqDecision pyval.
Proof. solve_decision. Defined.

Record store := {
  USER_STATE : gmap Z (gmap string pyval);
  USER_PROXY : gmap Z str;
  MERGE_BUCKET : gmap Z (list path);
  IMG_BUCKET : gmap Z (list path) }.

Definition with_USER_STATE (f : gmap Z (gmap string pyval) → gmap Z (gmap string pyval))
    (σ : store) : store :=
  {| USER_STATE := f (USER_STATE σ); USER_PROXY := USER_PROXY σ;
     MERGE_BUCKET := MERGE_BUCKET σ; IMG_BUCKET := IMG_BUCKET σ |}.

Definition with_USER_PROXY (f : gmap Z str → gmap Z str) (σ : store) : store :=
  {| USER_STATE := USER_STATE σ; USER_PROXY := f (USER_PROXY σ);
     MERGE_BUCKET := MERGE_BUCKET σ; IMG_BUCKET := IMG_BUCKET σ |}.

Definition with_MERGE_BUCKET (f : gmap Z (list path) → gmap Z (list path))
    (σ : store) : store :=
  {| USER_STATE := USER_STATE σ; USER_PROXY := USER_PROXY σ;
     MERGE_BUCKET := f (MERGE_BUCKET σ); IMG_BUCKET := IMG_BUCKET σ |}.

Definition with_IMG_BUCKET (f : gmap Z (list path) → gmap Z (list path))
    (σ : store) : store :=
  {| USER_STATE := USER_STATE σ; USER_PROXY := USER_PROXY σ;
     MERGE_BUCKET := MERGE_BUCKET σ; IMG_BUCKET := f (IMG_BUCKET σ) |}.

(** ** Handlers as state-passing programs *)

(** A handler runs on the store and on the log of the calls made so far; it
    returns or raises, and leaves a store and a longer log. *)
Definition M (A : Type) : Type := store → list call → res A * store * list call.

Global Instance M_ret : MRet M := λ A a σ l, (Ok a, σ, l).

Global Instance M_bind : MBind M := λ A B f m σ l,
  match m σ l with
  | (Ok a, σ', l') => f a σ' l'
  | (Raise e, σ', l') => (Raise e, σ', l')
  end.

Definition raise {A} (e : exn) : M A := λ σ l, (Raise e, σ, l).

(** [try: m except Exception as e: h e] *)
Definition try_except {A} (m : M A) (h : exn → M A) : M A := λ σ l,
  match m σ l with
  | (Ok a, σ', l') => (Ok a, σ', l')
  | (Raise e, σ', l') => h e σ' l'
  end.

(** [try: m finally: f] *)
Definition try_finally {A} (m : M A) (f : M unit) : M A := λ σ l,
  match m σ l with
  | (r, σ', l') =>
      match f σ' l' with
      | (Ok _, σ'', l'') => (r, σ'', l'')
      | (Raise e, σ'', l'') => (Raise e, σ'', l'')
      end
  end.

Definition get_store : M store := λ σ l, (Ok σ, σ, l).
Definition modify (f : store → store) : M unit := λ σ l, (Ok (), f σ, l).

(** [str(n)] for an integer *)
Definition str_of_Z (n : Z) : str := lit (NilZero.string_of_int (Z.to_int n)).

Section session.
Context (E : env).

(** A text sent to the chat and a directory creation with [exist_ok] are
    logged and taken not to fail; the other calls raise when the outside
    world says so.  The result that a theorem gives for a handler is thus
    the result of the runs in which the texts are delivered. *)
Definition say (c : call) : M unit := λ σ l, (Ok (), σ, l ++ [c]).

Definition perform (c : call) : M unit := λ σ l,
  (match fails E c with Some e => Raise e | None => Ok () end, σ, l ++ [c]).

Definition ask (c : call) : M bool := λ σ l, (Ok (holds E c), σ, l ++ [c]).

Definition fetch (c : call) : M path := λ σ l,
  (match fails E c with Some e => Raise e | None => Ok (found E c) end,
   σ, l ++ [c]).

(** *** set_state, get_state (the same in bot.py and app.py) *)

Definition set_state (user_id : Z) (menu : str) (action : option str)
    (extra : gmap string pyval) : M unit :=
  let st : gmap string pyval :=
    {[ "menu" := PStr menu; "action" := from_option PStr PNone action ]} in
  (* st.update(extra): the keys of [extra] win *)
  modify (with_USER_STATE <[user_id := extra ∪ st]>).

(** [USER_STATE.get(user_id, {"menu": "main", "action": None})] *)
Definition state_of (σ : store) (user_id : Z) : gmap string pyval :=
  default {[ "menu" := PStr (lit "main"); "action" := PNone ]}
          (USER_STATE σ !! user_id).

Definition get_state (user_id : Z) : M (gmap string pyval) :=
  σ ← get_store; mret (state_of σ user_id).

(** *** storage.py: the per-user directories *)

Definition ensure_dir (p : path) : M path := say (Mkdir p);; mret p.

Definition user_dir (base : str) (user_id : Z) : M path :=
  ensure_dir (path_div (Path base) (str_of_Z user_id)).

Definition work_dir (base : str) (user_id : Z) : M path :=
  u ← user_dir base user_id; ensure_dir (path_div u (lit "work")).

Definition downloads_dir (base : str) (user_id : Z) : M path :=
  u ← user_dir base user_id; ensure_dir (path_div u (lit "downloads")).

Definition output_dir (base : str) (user_id : Z) : M path :=
  u ← user_dir base user_id; ensure_dir (path_div u (lit "output")).

(** *** features_file.py *)

Definition do_zip (input_paths : list path) (out_zip : path) : M path :=
  perform (ZipPaths input_paths out_zip);; mret out_zip.

Definition do_unzip (zip_file out_dir : path) : M path :=
  perform (UnzipToDir zip_file out_dir);; mret out_dir.

Definition do_rename (file_path : path) (new_name : str) : M path :=
  let new_name := safe_filename new_name in
  if bool_decide (new_name = []) then
    raise (ValueError [T "New filename is empty."])
  else
    match with_name file_path new_name with
    | None => raise (ValueError [T "Invalid name"])
    | Some target => perform (Rename file_path target);; mret target
    end.

Definition do_text_to_pdf (txt : str) (out_pdf : path) : M path :=
  perform (TextToPdf txt out_pdf);; mret out_pdf.

Definition do_images_to_pdf (images : list path) (out_pdf : path) : M path :=
  perform (ImagesToPdf images out_pdf);; mret out_pdf.

Definition do_merge_pdfs (pdfs : list path) (out_pdf : path) : M path :=
  perform (MergePdfs pdfs out_pdf);; mret out_pdf.

(** [q.data.split(":", 1)[1]] *)
Definition callback_cmd (q : CallbackQuery) : M str :=
  match split1 58 (data q) with
  | Some (_, cmd) => mret cmd
  | None => raise (IndexError [T "list index out of range"])
  end.

(** [x == "..."] against a literal of the source *)
Definition equals (x : str) (l : string) : bool := bool_decide (x = lit l).
Definition action_is (action : pyval) (l : string) : bool :=
  bool_decide (action = PStr (lit l)).

End session.

(** ** bot.py *)

Module Bot.
Section bot.
Context (E : env) (settings : Settings).

Definition download_telegram_file (message : Message) (dest : path) : M path :=
  say (Mkdir (path_parent dest));;
  match document message with
  | None => raise (ValueError [T "No document found."])
  | Some file =>
      let max_bytes := max_telegram_file_mb settings * 1024 * 1024 in
      let size := default 0 (file_size file) in
      (* file.file_size and file.file_size > max_bytes *)
      if negb (size =? 0) && (size >? max_bytes) then
        raise (ValueError [T "File too large: "; Mb size; T " (limit ";
                           D (max_telegram_file_mb settings); T " MB)."])
      else
        perform E (BotDownload (file_id file) dest);; mret dest
  end.

Definition send_file (chat_id : Z) (p : path) (caption : fstring) : M unit :=
  ex ← ask E (Exists p);
  if negb ex then raise (ValueError [T "Output file not found."])
  else perform E (SendDocument chat_id p [Cut 900 caption]).

Definition user_proxy (user_id : Z) : M (option str) :=
  σ ← get_store; mret (USER_PROXY σ !! user_id).

Definition start (message : Message) : M unit :=
  perform E (CleanupOld (base_dir settings) 24);;
  set_state (from_user message) (lit "main") None ∅;;
  say (Answer [T "Choose an option:"] (Some main_menu_kb)).

Definition menu_nav (q : CallbackQuery) : M unit :=
  let user_id := q_from_user q in
  cmd ← callback_cmd q;
  (if equals cmd "file" then
     set_state user_id (lit "file") None ∅;;
     say (EditText [T "File management:"] (Some file_menu_kb))
   else if equals cmd "dl" then
     set_state user_id (lit "dl") None ∅;;
     say (EditText [T "Downloader:"] (Some dl_menu_kb))
   else if equals cmd "proxy" then
     set_state user_id (lit "proxy") None ∅;;
     say (EditText [T "Proxies (optional):"] (Some proxy_menu_kb))
   else
     set_state user_id (lit "main") None ∅;;
     say (EditText [T "Choose an option:"] (Some main_menu_kb)));;
  say CallbackAnswer.

Definition proxy_actions (q : CallbackQuery) : M unit :=
  let user_id := q_from_user q in
  action ← callback_cmd q;
  (if equals action "set" then
     set_state user_id (lit "proxy") (Some (lit "proxy_wait")) ∅;;
     say (Answer [T "Send your proxy in one line."; NL; NL; T "Examples:"; NL;
                  T "http://ip:port"; NL; T "http://user:pass@ip:port"; NL;
                  T "socks5://ip:port"] None)
   else if equals action "clear" then
     modify (with_USER_PROXY (delete user_id));;
     say (Answer [T "Proxy cleared."] None)
   else if equals action "show" then
     σ ← get_store;
     match USER_PROXY σ !! user_id with
     | Some ((_ :: _) as p) => say (Answer [T "Current proxy: "; V p] None)
     | _ => say (Answer [T "Current proxy: "; T "None"] None)
     end
   else mret ());;
  say CallbackAnswer.

Definition file_actions (q : CallbackQuery) : M unit :=
  let user_id := q_from_user q in
  action ← callback_cmd q;
  (if equals action "zip" then
     set_state user_id (lit "file") (Some (lit "zip_wait_file")) ∅;;
     say (Answer [T "Send ONE file (or a ZIP). I will zip it (or re-zip after unzip)."] None)
   else if equals action "unzip" then
     set_state user_id (lit "file") (Some (lit "unzip_wait_zip")) ∅;;
     say (Answer [T "Send a .zip file to unzip (I will return a new .zip of extracted contents)."] None)
   else if equals action "rename" then
     set_state user_id (lit "file") (Some (lit "rename_wait_file")) ∅;;
     say (Answer [T "Send the file you want to rename."] None)
   else if equals action "text2pdf" then
     set_state user_id (lit "file") (Some (lit "text2pdf_wait_text")) ∅;;
     say (Answer [T "Send the text (message) to convert into PDF."] None)
   else if equals action "img2pdf" then
     modify (with_IMG_BUCKET <[user_id := []]>);;
     set_state user_id (lit "file") (Some (lit "img2pdf_collect")) ∅;;
     say (Answer [T "Send image files (jpg/png/etc). When done, press ✅ Done."]
                 (Some imgpdf_controls_kb))
   else if equals action "mergepdf" then
     modify (with_MERGE_BUCKET <[user_id := []]>);;
     set_state user_id (lit "file") (Some (lit "merge_collect")) ∅;;
     say (Answer [T "Send PDF files to merge. When done, press ✅ Done."]
                 (Some merge_controls_kb))
   else mret ());;
  say CallbackAnswer.

Definition dl_actions (q : CallbackQuery) : M unit :=
  let user_id := q_from_user q in
  action ← callback_cmd q;
  (if equals action "auto" then
     set_state user_id (lit "dl") (Some (lit "dl_wait_link_auto")) ∅;;
     say (Answer [T "Send a link (MEGA / Google Drive / YouTube / PixelDrain). I will auto-detect."] None)
   else if equals action "yt" then
     set_state user_id (lit "dl") (Some (lit "dl_wait_link_yt")) ∅;;
     say (Answer [T "Send a YouTube video or playlist link."] None)
   else if equals action "gdrive" then
     set_state user_id (lit "dl") (Some (lit "dl_wait_link_gdrive")) ∅;;
     say (Answer [T "Send a Google Drive share link."] None)
   else if equals action "mega" then
     set_state user_id (lit "dl") (Some (lit "dl_wait_link_mega")) ∅;;
     say (Answer [T "Send a MEGA link."] None)
   else if equals action "pixeldrain" then
     set_state user_id (lit "dl") (Some (lit "dl_wait_link_pixeldrain")) ∅;;
     say (Answer [T "Send a PixelDrain link."] None)
   else mret ());;
  say CallbackAnswer.

Definition merge_controls (q : CallbackQuery) : M unit :=
  let user_id := q_from_user q in
  cmd ← callback_cmd q;
  if equals cmd "clear" then
    modify (with_MERGE_BUCKET <[user_id := []]>);;
    say (Answer [T "Merge list cleared. Send PDFs again."] None);;
    say CallbackAnswer
  else if equals cmd "cancel" then
    modify (with_MERGE_BUCKET (delete user_id));;
    set_state user_id (lit "file") None ∅;;
    say (Answer [T "Merge cancelled."] (Some file_menu_kb));;
    say CallbackAnswer
  else if equals cmd "done" then
    σ ← get_store;
    let pdfs := default [] (MERGE_BUCKET σ !! user_id) in
    if bool_decide (length pdfs < 2)%nat then
      say (Answer [T "Send at least 2 PDFs before merging."] None);;
      say CallbackAnswer
      (* return *)
    else
      odir ← output_dir (base_dir settings) user_id;
      let out := path_div odir (safe_filename (lit "merged.pdf")) in
      try_finally
        (say (Answer [T "Merging PDFs…"] None);;
         do_merge_pdfs E pdfs out;;
         send_file (q_chat q) out [T "Merged PDF ✅"])
        (* cleanup session *)
        (modify (with_MERGE_BUCKET (delete user_id)));;
      set_state user_id (lit "file") None ∅;;
      say CallbackAnswer
  else say CallbackAnswer.

Definition imgpdf_controls (q : CallbackQuery) : M unit :=
  let user_id := q_from_user q in
  cmd ← callback_cmd q;
  if equals cmd "clear" then
    modify (with_IMG_BUCKET <[user_id := []]>);;
    say (Answer [T "Image list cleared. Send images again."] None);;
    say CallbackAnswer
  else if equals cmd "cancel" then
    modify (with_IMG_BUCKET (delete user_id));;
    set_state user_id (lit "file") None ∅;;
    say (Answer [T "Image→PDF cancelled."] (Some file_menu_kb));;
    say CallbackAnswer
  else if equals cmd "done" then
    σ ← get_store;
    let imgs := default [] (IMG_BUCKET σ !! user_id) in
    if bool_decide (length imgs < 1)%nat then
      say (Answer [T "Send at least 1 image first."] None);;
      say CallbackAnswer
      (* return *)
    else
      odir ← output_dir (base_dir settings) user_id;
      let out := path_div odir (safe_filename (lit "images.pdf")) in
      try_finally
        (say (Answer [T "Converting images to PDF…"] None);;
         do_images_to_pdf E imgs out;;
         send_file (q_chat q) out [T "Image → PDF ✅"])
        (modify (with_IMG_BUCKET (delete user_id)));;
      set_state user_id (lit "file") None ∅;;
      say CallbackAnswer
  else say CallbackAnswer.

(** The branch of [handle_message] for the downloader links. *)
Definition handle_link (message : Message) (action : str) (proxy : option str)
    : M unit :=
  let user_id := from_user message in
  let url := strip (default [] (text message)) in
  if bool_decide (url = []) then
    say (Reply [T "Send a valid link."] None)
  else
    ddir ← downloads_dir (base_dir settings) user_id;
    odir ← output_dir (base_dir settings) user_id;
    let mode := replace (lit "dl_wait_link_") [] action in
    let mode := if equals mode "auto" then guess_downloader url else mode in
    try_finally
      (try_except
         (say (Answer [T "Working on it…"] None);;
          if equals mode "pixeldrain" then
            p ← fetch E (DownloadPixeldrain url ddir proxy);
            send_file (chat message) p [T "PixelDrain download ✅"]
          else if equals mode "gdrive" then
            p ← fetch E (DownloadGdrive url ddir proxy);
            send_file (chat message) p [T "Google Drive download ✅"]
          else if equals mode "youtube" || equals mode "yt" then
            yt_out ← fetch E (DownloadYoutube url ddir proxy);
            is_dir ← ask E (IsDir yt_out);
            if (is_dir : bool) then
              let out_zip := path_div odir (safe_filename (lit "youtube_playlist.zip")) in
              say (Answer [T "Playlist detected → zipping…"] None);;
              do_zip E [yt_out] out_zip;;
              send_file (chat message) out_zip [T "YouTube playlist ZIP ✅"]
            else
              send_file (chat message) yt_out [T "YouTube download ✅"]
          else if equals mode "mega" then
            p ← fetch E (DownloadMega url ddir proxy);
            send_file (chat message) p [T "MEGA download ✅"]
          else
            say (Reply [T "I couldn’t detect that link type. Use the Downloader menu to choose one."] None))
         (λ e, say (Reply [T "Download failed:"; NL; Cut 3500 (exn_str e)] None)))
      (set_state user_id (lit "dl") None ∅).

(** The branch of [handle_message] for a message carrying a document. *)
Definition handle_document (message : Message) (file : Document)
    (action : pyval) : M unit :=
  let user_id := from_user message in
  let filename :=
    match file_name file with
    | Some ((_ :: _) as n) => n
    | _ => lit "file.bin"
    end in
  let '(kind, ext) := detect_content_type_from_name filename in
  wdir ← work_dir (base_dir settings) user_id;
  ddir ← downloads_dir (base_dir settings) user_id;
  odir ← output_dir (base_dir settings) user_id;
  let local_path := path_div wdir (safe_filename filename) in
  if action_is action "zip_wait_file" then
    say (Answer [T "Downloading file…"] None);;
    download_telegram_file message local_path;;
    let out_zip :=
      path_div odir (safe_filename (path_stem (Path filename) ++ lit ".zip")) in
    say (Answer [T "Zipping…"] None);;
    do_zip E [local_path] out_zip;;
    send_file (chat message) out_zip [T "Zipped ✅"];;
    set_state user_id (lit "file") None ∅
  else if action_is action "unzip_wait_zip" then
    say (Answer [T "Downloading ZIP…"] None);;
    download_telegram_file message local_path;;
    ok ← ask E (IsZipfile local_path);
    if negb ok then
      say (Reply [T "That file is not a valid ZIP."] None)
    else
      let extracted := path_div wdir (lit "unzipped") in
      say (Answer [T "Unzipping…"] None);;
      do_unzip E local_path extracted;;
      let out_zip :=
        path_div odir
          (safe_filename (path_stem (Path filename) ++ lit "_unzipped.zip")) in
      say (Answer [T "Re-zipping extracted folder…"] None);;
      do_zip E [extracted] out_zip;;
      send_file (chat message) out_zip [T "Unzipped + rezipped ✅"];;
      set_state user_id (lit "file") None ∅
  else if action_is action "rename_wait_file" then
    say (Answer [T "Downloading file…"] None);;
    download_telegram_file message local_path;;
    set_state user_id (lit "file") (Some (lit "rename_wait_newname"))
              {[ "rename_path" := PStr (path_str local_path) ]};;
    say (Answer [T "Now send the NEW filename (example: newname.pdf)"] None)
  else if action_is action "merge_collect" then
    if negb (equals kind "pdf") then
      say (Reply [T "Please send only PDF files for merging."] None)
    else
      say (Answer [T "Downloading PDF…"] None);;
      download_telegram_file message local_path;;
      (* MERGE_BUCKET.setdefault(user_id, []).append(local_path) *)
      modify (with_MERGE_BUCKET (λ b,
        <[user_id := default [] (b !! user_id) ++ [local_path]]> b));;
      σ ← get_store;
      say (Answer [T "Added ✅ (total: ";
                   D (Z.of_nat (length (default [] (MERGE_BUCKET σ !! user_id))));
                   T ")"] (Some merge_controls_kb))
  else if action_is action "img2pdf_collect" then
    if negb (equals kind "image") then
      say (Reply [T "Please send only image files (jpg/png/etc)."] None)
    else
      say (Answer [T "Downloading image…"] None);;
      download_telegram_file message local_path;;
      modify (with_IMG_BUCKET (λ b,
        <[user_id := default [] (b !! user_id) ++ [local_path]]> b));;
      σ ← get_store;
      say (Answer [T "Added ✅ (total: ";
                   D (Z.of_nat (length (default [] (IMG_BUCKET σ !! user_id))));
                   T ")"] (Some imgpdf_controls_kb))
  else
    (* the user sends a file without choosing an action *)
    say (Reply [T "Use the buttons to pick a task first."] (Some main_menu_kb)).

(** The branch of [handle_message] for the new name of a rename. *)
Definition handle_newname (message : Message) (st : gmap string pyval)
    : M unit :=
  let user_id := from_user message in
  let new_name := strip (default [] (text message)) in
  if bool_decide (new_name = []) then
    say (Reply [T "Send a valid filename (example: myfile.pdf)"] None)
  else
    match st !! "rename_path" with
    | Some (PStr ((_ :: _) as path_s)) =>
        let fpath := Path path_s in
        r ← try_except (p ← do_rename E fpath new_name; mret (Some p))
              (λ e, say (Reply (T "Rename failed: " :: exn_str e) None);;
                    mret None);
        match r with
        | None => mret ()                          (* return *)
        | Some new_path =>
            send_file (chat message) new_path [T "Renamed ✅"];;
            set_state user_id (lit "file") None ∅
        end
    | _ =>
        set_state user_id (lit "file") None ∅;;
        say (Reply [T "Rename session expired. Try again."] None)
    end.

Definition handle_message (message : Message) : M unit :=
  let user_id := from_user message in
  st ← get_state user_id;
  let action := default PNone (st !! "action") in
  proxy ← user_proxy user_id;
  (* proxy input *)
  if action_is action "proxy_wait" then
    let p := strip (default [] (text message)) in
    if negb (PROXY_RE_match p) then
      say (Reply [T "Proxy must start with http://, https://, or socks5://"] None)
    else
      modify (with_USER_PROXY <[user_id := p]>);;
      set_state user_id (lit "proxy") None ∅;;
      say (Reply [T "Proxy saved ✅"] None)
  (* text -> pdf *)
  else if action_is action "text2pdf_wait_text" then
    let txt := default [] (text message) in
    if bool_decide (strip txt = []) then
      say (Reply [T "Send some text (not empty)."] None)
    else if Z.of_nat (length txt) >? max_text_len settings then
      say (Reply [T "Text too long (limit "; D (max_text_len settings);
                  T " characters)."] None)
    else
      odir ← output_dir (base_dir settings) user_id;
      let out := path_div odir (safe_filename (lit "text.pdf")) in
      say (Answer [T "Creating PDF…"] None);;
      do_text_to_pdf E txt out;;
      send_file (chat message) out [T "Text → PDF ✅"];;
      set_state user_id (lit "file") None ∅
  else
    match document message with
    (* document handling *)
    | Some file => handle_document message file action
    | None =>
        (* rename new name text *)
        if action_is action "rename_wait_newname" then
          handle_newname message st
        else
          match action with
          (* downloader links *)
          | PStr ((_ :: _) as a) =>
              if startswith (lit "dl_wait_link") a
              then handle_link message a proxy
              else say (Reply [T "Use the buttons to choose a task."]
                              (Some main_menu_kb))
          | _ => say (Reply [T "Use the buttons to choose a task."]
                            (Some main_menu_kb))
          end
    end.

(** *** The dispatcher *)

(** An update as the framework hands it to the handlers: a message that
    passed the [CommandStart()] filter, any other message, a button
    press. *)
Inductive update :=
  | OnStart (message : Message)
  | OnMessage (message : Message)
  | OnCallback (q : CallbackQuery).

(** The handlers are tried in the order of their registration; a button
    press that no filter accepts is dropped. *)
Definition dispatch (u : update) : M unit :=
  match u with
  | OnStart message => start message
  | OnMessage message => handle_message message
  | OnCallback q =>
      if startswith (lit "menu:") (data q) then menu_nav q
      else if startswith (lit "proxy:") (data q) then proxy_actions q
      else if startswith (lit "file:") (data q) then file_actions q
      else if startswith (lit "dl:") (data q) then dl_actions q
      else if startswith (lit "merge:") (data q) then merge_controls q
      else if startswith (lit "imgpdf:") (data q) then imgpdf_controls q
      else mret ()
  end.

End bot.
End Bot.

(** ** app.py *)

Module App.
Section app.
(** The settings read from the environment at import time. *)
Context (E : env) (BASE : path) (MAX_TG_FILE_MB MAX_TEXT_LEN : Z)
        (FREE_MODE : bool).

Definition user_dirs (user_id : Z) : M (path * path * path) :=
  let u := path_div BASE (str_of_Z user_id) in
  let w := path_div u (lit "work") in
  let d := path_div u (lit "downloads") in
  let o := path_div u (lit "output") in
  say (Mkdir w);; say (Mkdir d);; say (Mkdir o);;
  mret (w, d, o).

Definition download_telegram_document (message : Message) (dest : path)
    : M path :=
  match document message with
  | None => raise (ValueError [T "No file found."])
  | Some doc =>
      let max_bytes := MAX_TG_FILE_MB * 1024 * 1024 in
      let size := default 0 (file_size doc) in
      if negb (size =? 0) && (size >? max_bytes) then
        raise (ValueError [T "File too large. Limit = "; D MAX_TG_FILE_MB;
                           T " MB"])
      else
        perform E (BotDownload (file_id doc) dest);; mret dest
  end.

Definition send_file (chat_id : Z) (p : path) (caption : fstring) : M unit :=
  perform E (SendDocument chat_id p [Cut 900 caption]).

Definition merge_controls (q : CallbackQuery) : M unit :=
  let user_id := q_from_user q in
  cmd ← callback_cmd q;
  if equals cmd "clear" then
    modify (with_MERGE_BUCKET <[user_id := []]>);;
    say (Answer [T "Merge list cleared."] None);;
    say CallbackAnswer
  else if equals cmd "cancel" then
    modify (with_MERGE_BUCKET (delete user_id));;
    set_state user_id (lit "file") None ∅;;
    say (Answer [T "Cancelled."] (Some file_menu_kb));;
    say CallbackAnswer
  else if equals cmd "done" then
    σ ← get_store;
    let pdfs := default [] (MERGE_BUCKET σ !! user_id) in
    if bool_decide (length pdfs < 2)%nat then
      say (Answer [T "Send at least 2 PDFs."] None);;
      say CallbackAnswer
      (* return *)
    else if FREE_MODE && bool_decide (10 < length pdfs)%nat then
      say (Answer [T "Free mode: max 10 PDFs per merge."] None);;
      say CallbackAnswer
      (* return *)
    else
      dirs ← user_dirs user_id; let outdir := dirs.2 in
      let out := path_div outdir (lit "merged.pdf") in
      say (Answer [T "Merging…"] None);;
      perform E (MergePdfs pdfs out);;
      send_file (q_chat q) out [T "Merged PDF ✅"];;
      modify (with_MERGE_BUCKET (delete user_id));;
      set_state user_id (lit "file") None ∅;;
      say CallbackAnswer
  else say CallbackAnswer.

Definition imgpdf_controls (q : CallbackQuery) : M unit :=
  let user_id := q_from_user q in
  cmd ← callback_cmd q;
  if equals cmd "clear" then
    modify (with_IMG_BUCKET <[user_id := []]>);;
    say (Answer [T "Image list cleared."] None);;
    say CallbackAnswer
  else if equals cmd "cancel" then
    modify (with_IMG_BUCKET (delete user_id));;
    set_state user_id (lit "file") None ∅;;
    say (Answer [T "Cancelled."] (Some file_menu_kb));;
    say CallbackAnswer
  else if equals cmd "done" then
    σ ← get_store;
    let imgs := default [] (IMG_BUCKET σ !! user_id) in
    if bool_decide (length imgs < 1)%nat then
      say (Answer [T "Send at least 1 image."] None);;
      say CallbackAnswer
      (* return *)
    else if FREE_MODE && bool_decide (20 < length imgs)%nat then
      say (Answer [T "Free mode: max 20 images per PDF."] None);;
      say CallbackAnswer
      (* return *)
    else
      dirs ← user_dirs user_id; let outdir := dirs.2 in
      let out := path_div outdir (lit "images.pdf") in
      say (Answer [T "Converting…"] None);;
      perform E (ImagesToPdf imgs out);;
      send_file (q_chat q) out [T "Image → PDF ✅"];;
      modify (with_IMG_BUCKET (delete user_id));;
      set_state user_id (lit "file") None ∅;;
      say CallbackAnswer
  else say CallbackAnswer.

(** The document flows of [handle_message] (the end of the file): they
    are a parameter of the branches that precede them. *)
Context (document_flows : Message → gmap string pyval → M unit).

Definition handle_message (message : Message) : M unit :=
  let user_id := from_user message in
  st ← get_state user_id;
  let action := default PNone (st !! "action") in
  if action_is action "proxy_wait" then
    let p := strip (default [] (text message)) in
    if negb (PROXY_RE_match p) then
      say (Reply [T "Invalid proxy. Must start with http:// https:// or socks5://"] None)
    else
      modify (with_USER_PROXY <[user_id := p]>);;
      set_state user_id (lit "proxy") None ∅;;
      say (Reply [T "Proxy saved ✅"] None)
  (* text -> pdf *)
  else if action_is action "text2pdf_wait_text" then
    let txt := default [] (text message) in
    if bool_decide (strip txt = []) then
      say (Reply [T "Send some text."] None)
    else if Z.of_nat (length txt) >? MAX_TEXT_LEN then
      say (Reply [T "Text too long for free mode."] None)
    else
      dirs ← user_dirs user_id; let outdir := dirs.2 in
      let out := path_div outdir (lit "text.pdf") in
      say (Answer [T "Creating PDF…"] None);;
      perform E (TextToPdf txt out);;
      send_file (chat message) out [T "Text → PDF ✅"];;
      set_state user_id (lit "file") None ∅
  (* rename flow *)
  else if action_is action "rename_wait_newname" then
    let new_name := safe_filename (default [] (text message)) in
    match new_name, st !! "rename_path" with
    | _ :: _, Some (PStr ((_ :: _) as path_s)) =>
        let p := Path path_s in
        match with_name p new_name with
        | None => raise (ValueError [T "Invalid name"])
        | Some newp =>
            perform E (Rename p newp);;
            send_file (chat message) newp [T "Renamed ✅"];;
            set_state user_id (lit "file") None ∅
        end
    | _, _ =>
        say (Reply [T "Rename failed. Try again."] None);;
        set_state user_id (lit "file") None ∅
    end
  else document_flows message st.

End app.
End App.

(** ** The file system seen by utils.py and storage.py *)

Module Fs.

(** A directory tree without links.  The modification time of a node is
    its [st_mtime] read as a naive local time, in microseconds counted from
    [datetime.min] (midnight of 0001-01-01); it need not lie in the range
    of [datetime]. *)
#[warnings="-register-all"]
Inductive node :=
  | File (mtime : Z) (content : list N)
  | Dir (mtime : Z) (children : list (str * node)).

Record fs := {
  root : node;           (* the tree under [/] *)
  cwd : list str }.      (* the names from [/] to the current directory *)

Fixpoint child (w : str) (cs : list (str * node)) : option node :=
  match cs with
  | [] => None
  | (w', c) :: cs' => if bool_decide (w' = w) then Some c else child w cs'
  end.

Fixpoint find (n : node) (names : list str) : option node :=
  match names with
  | [] => Some n
  | w :: names' =>
      match n with
      | File _ _ => None
      | Dir _ cs =>
          match child w cs with
          | Some c => find c names'
          | None => None
          end
      end
  end.

(** The node a path leads to; the names are looked up as they are. *)
Definition lookup (f : fs) (p : path) : option node :=
  if is_absolute p then find (root f) (path_tail p)
  else find (root f) (cwd f ++ p).

Definition exists_ (f : fs) (p : path) : bool := bool_decide (is_Some (lookup f p)).

Definition is_dir (f : fs) (p : path) : bool :=
  match lookup f p with Some (Dir _ _) => true | _ => false end.

Definition node_is_file (n : node) : bool :=
  match n with File _ _ => true | Dir _ _ => false end.

(** Every entry below a node, with its names relative to the node, in the
    order of [rglob("*")] (pathlib of Python 3.11): the recursive selector
    visits the directory itself and then, one after the other, the
    sub-directories of its listing with what is below them; at each
    directory visited the wild-card selector yields the whole listing.  So
    all the entries of a directory come before the entries of its
    sub-directories. *)
Fixpoint walk (n : node) : list (list str * node) :=
  match n with
  | File _ _ => []
  | Dir _ cs =>
      ((λ e, ([e.1], e.2)) <$> cs)
      ++ (cs ≫= λ e, (λ x, (e.1 :: x.1, x.2)) <$> walk e.2)
  end.

(** [p.rglob("*")]: each entry comes with its path, which extends [p]. *)
Definition rglob (f : fs) (p : path) : list (path * node) :=
  match lookup f p with
  | Some n => (λ e, (p ++ e.1, e.2)) <$> walk n
  | None => []
  end.

(** [p.iterdir()] *)
Definition iterdir (f : fs) (p : path) : res (list (path * node)) :=
  match lookup f p with
  | Some (Dir _ cs) => Ok ((λ e, (p ++ [e.1], e.2)) <$> cs)
  | Some (File _ _) => Raise (OtherError [T "NotADirectoryError"])
  | None => Raise (OtherError [T "FileNotFoundError"])
  end.

End Fs.

Global Instance res_ret : MRet res := λ A a, Ok a.
Global Instance res_bind : MBind res := λ A B f r,
  match r with Ok a => f a | Raise e => Raise e end.

(** ** utils.py: zip_paths *)

(** An archive is the list of its members: the name given to [zf.write] and
    the bytes of the file. *)
Abbreviation archive := (list (str * list N)).

(** [zf.write(p, arcname=arc)] for an entry that is a file. *)
Definition zf_write (n : Fs.node) (arc : str) : res archive :=
  match n with
  | Fs.File _ data => Ok [(arc, data)]
  | Fs.Dir _ _ => Raise (OtherError [T "IsADirectoryError"])
  end.

(** The loop over [p.rglob("*")]. *)
Fixpoint zip_dir (parent : path) (subs : list (path * Fs.node)) : res archive :=
  match subs with
  | [] => Ok []
  | (sub, n) :: subs' =>
      if Fs.node_is_file n then
        match relative_to sub parent with
        | None => Raise (ValueError [T "not in the subpath"])
        | Some rel =>
            a ← zf_write n (path_str rel);
            b ← zip_dir parent subs';
            mret (a ++ b)
        end
      else zip_dir parent subs'
  end.

(** The members written to [out_zip], in order. *)
Fixpoint zip_paths (f : Fs.fs) (paths : list path) : res archive :=
  match paths with
  | [] => Ok []
  | p :: paths' =>
      a ← (if Fs.is_dir f p then zip_dir (path_parent p) (Fs.rglob f p)
           else match Fs.lookup f p with
                | Some n => zf_write n (path_name p)
                | None => Raise (OtherError [T "FileNotFoundError"])
                end);
      b ← zip_paths f paths';
      mret (a ++ b)
  end.

(** ** storage.py: cleanup_old *)

(** A [datetime] is counted in microseconds from [datetime.min]; the last
    one, [datetime.max], is the last microsecond of the year 9999, which
    ends 3652059 days after [datetime.min]. *)
Definition datetime_max : Z := 3652059 * 86400 * 1000000 - 1.

Definition is_datetime (t : Z) : bool := (0 <=? t) && (t <=? datetime_max).

(** [timedelta(hours=h)], in microseconds: the constructor raises
    [OverflowError] when the number of whole days is beyond 999999999 in
    magnitude. *)
Definition timedelta_hours (h : Z) : res Z :=
  let us := h * 3600 * 1000000 in
  if Z.abs (us / (86400 * 1000000)) <=? 999999999 then Ok us
  else Raise (OtherError [T "OverflowError"]).

(** [t - td] for a [datetime] and a [timedelta]: [OverflowError] when the
    result is not a [datetime]. *)
Definition datetime_sub (t td : Z) : res Z :=
  if is_datetime (t - td) then Ok (t - td)
  else Raise (OtherError [T "OverflowError"]).

(** [datetime.fromtimestamp(st_mtime)]: an error when the local time is
    outside the years 1 to 9999 ([ValueError], or [OverflowError] for the
    times that the platform cannot convert; one error stands for both). *)
Definition fromtimestamp (mtime : Z) : res Z :=
  if is_datetime mtime then Ok mtime
  else Raise (OtherError [T "ValueError"]).

(** The loop over [base_path.iterdir()]; [child.is_dir()] and
    [child.stat().st_mtime] are read off the entry.  [deleted] is the
    counter, [removed] the directories handed so far to
    [shutil.rmtree(child, ignore_errors=True)], which cannot raise; they
    stay removed when a later child makes the loop raise. *)
Fixpoint sweep (cutoff : Z) (children : list (path * Fs.node))
    (deleted : Z) (removed : list path) : res Z * list path :=
  match children with
  | [] => (Ok deleted, removed)
  | (child, Fs.File _ _) :: rest =>
      sweep cutoff rest deleted removed                       (* continue *)
  | (child, Fs.Dir mtime _) :: rest =>
      match fromtimestamp mtime with
      | Raise e => (Raise e, removed)
      | Ok mtime =>
          if mtime <? cutoff
          then sweep cutoff rest (deleted + 1) (removed ++ [child])
          else sweep cutoff rest deleted removed
      end
  end.

(** [cleanup_old(base, older_than_hours)] when [datetime.now()] is [now]:
    the value returned or the exception raised, and the directories handed
    to [rmtree]. *)
Definition cleanup_old (f : Fs.fs) (now : Z) (base : str) (older_than_hours : Z)
    : res Z * list path :=
  let base_path := Path base in
  if negb (Fs.exists_ f base_path) then (Ok 0, [])
  else
    match td ← timedelta_hours older_than_hours; datetime_sub now td with
    | Raise e => (Raise e, [])
    | Ok cutoff =>
        match Fs.iterdir f base_path with
        | Raise e => (Raise e, [])
        | Ok children => sweep cutoff children 0 []
        end
    end.

(** ** Auxiliary notions used in the proofs *)

(** [tidy b s]: every character of [s] is allowed, every white-space
    character of [s] is the plain space, and no space follows a position
    where white space was just seen ([b] tells it for the position before
    [s]). *)
Fixpoint tidy (b : bool) (s : str) : Prop :=
  match s with
  | [] => True
  | c :: t =>
      illegal c = false /\
      if isspace c then c = 32%N /\ b = false /\ tidy true t else tidy false t
  end.

(** A name whose 180th character is a space followed by more text. *)
Definition long_name : str := replicate 179 97%N ++ lit " b".

(** The members that zipping the entries [es] below a directory gives when
    the names of the members start with [top]. *)
Definition members (top : list str) (es : list (list str * Fs.node)) : archive :=
  es ≫= λ e, match e.2 with
             | Fs.File _ data => [(path_str (top ++ e.1), data)]
             | Fs.Dir _ _ => []
             end.

(** The children of [base_path] that are directories last modified before
    [cutoff]. *)
Definition old_dirs (cutoff : Z) (base_path : path) (cs : list (str * Fs.node))
    : list path :=
  omap (λ e, match e.2 with
             | Fs.Dir mtime _ =>
                 if mtime <? cutoff then Some (base_path ++ [e.1]) else None
             | Fs.File _ _ => None
             end) cs.

(** [has_marker m url]: the stripped, lower-cased [url] contains [m]. *)
Definition has_marker (m : string) (url : str) : bool :=
  contains (lit m) (lower (strip url)).

(** The names in every directory of the tree are distinct, and none
    contains a slash. *)
Fixpoint well_formed (n : Fs.node) : bool :=
  match n with
  | Fs.File _ _ => true
  | Fs.Dir _ cs =>
      bool_decide (NoDup cs.*1)
      && forallb (λ e, negb (contains [47%N] e.1) && well_formed e.2) cs
  end.

(** The child directories of a listing all have a modification time in the
    range of [datetime]. *)
Definition dated (cs : list (str * Fs.node)) : bool :=
  forallb (λ e, match e.2 with
                | Fs.Dir mtime _ => is_datetime mtime
                | Fs.File _ _ => true
                end) cs.

(** Sample file systems. *)
Definition sample_tree : Fs.node :=
  Fs.Dir 5 [(lit "storage",
             Fs.Dir 9 [(lit "1", Fs.Dir 10 [(lit "work", Fs.Dir 1 [(lit "a.txt", Fs.File 3 [1; 2]%N)]);
                                            (lit "o.bin", Fs.File 2 [7%N])]);
                       (lit "2", Fs.Dir 200 []);
                       (lit "f", Fs.File 1 [])]);
            (lit "token", Fs.File 7 [])].

Definition sample_fs : Fs.fs := {| Fs.root := sample_tree; Fs.cwd := [] |}.

(** The same tree seen from the directory [/storage/1]. *)
Definition sample_fs_in_1 : Fs.fs :=
  {| Fs.root := sample_tree; Fs.cwd := [lit "storage"; lit "1"] |}.

(** Midnight of 2026-11-03, in microseconds from [datetime.min]. *)
Definition sample_now : Z := 739922 * 86400 * 1000000.

(** A YouTube redirect link whose target is on mega.nz. *)
Definition redirect_url : str :=
  lit "https://www.youtube.com/redirect?q=https://mega.nz/file/xyz".

(** [st.get("action")] for the state of a user. *)
Definition action_of (σ : store) (user_id : Z) : pyval :=
  default PNone (state_of σ user_id !! "action").

(** The state dictionary that [set_state(user_id, menu, None)] stores. *)
Definition idle (menu : string) : gmap string pyval :=
  {[ "menu" := PStr (lit menu); "action" := PNone ]}.

(** The calls that create, write, move or fetch a file. *)
Definition touches_files (c : call) : bool :=
  match c with
  | Answer _ _ | Reply _ _ | EditText _ _ | CallbackAnswer
  | Exists _ | IsDir _ | IsZipfile _ | SendDocument _ _ _ => false
  | _ => true
  end.

(** The calls that fetch a document or a link, or write a file. *)
Definition fetches_or_writes (c : call) : bool :=
  match c with
  | Mkdir _ => false
  | _ => touches_files c
  end.

(** An outside world in which every call succeeds. *)
Definition calm : env :=
  {| fails := λ _, None; holds := λ _, true; found := λ _, [lit "downloaded"] |}.

Definition sample_settings : Settings :=
  {| bot_token := lit "token"; base_dir := lit "./storage";
     max_telegram_file_mb := 1900; max_text_len := 200000 |}.

(** A store in which user 7 is in the given menu and action. *)
Definition store_at (menu action : string) : store :=
  {| USER_STATE := {[ 7 := {[ "menu" := PStr (lit menu);
                              "action" := PStr (lit action) ]} ]};
     USER_PROXY := ∅; MERGE_BUCKET := ∅; IMG_BUCKET := ∅ |}.

Definition text_message (s : string) : Message :=
  {| from_user := 7; chat := 7; text := Some (lit s); document := None |}.

Definition document_message (name : string) (size : Z) : Message :=
  {| from_user := 7; chat := 7; text := None;
     document := Some {| file_name := Some (lit name); file_size := Some size;
                         file_id := lit "id1" |} |}.

(** The directories and output files of a user, bot.py and app.py. *)
Definition bot_user_dir (settings : Settings) (u : Z) : path :=
  path_div (Path (base_dir settings)) (str_of_Z u).
Definition bot_dir (settings : Settings) (u : Z) (sub : string) : path :=
  path_div (bot_user_dir settings u) (lit sub).
Definition bot_output (settings : Settings) (u : Z) (name : str) : path :=
  path_div (bot_dir settings u "output") (safe_filename name).
Definition app_dir (BASE : path) (u : Z) (sub : string) : path :=
  path_div (path_div BASE (str_of_Z u)) (lit sub).
Definition app_output (BASE : path) (u : Z) (name : string) : path :=
  path_div (app_dir BASE u "output") (lit name).

(** The three [..._dir] calls at the start of the document branch. *)
Definition bot_dirs_calls (settings : Settings) (u : Z) : list call :=
  [Mkdir (bot_user_dir settings u); Mkdir (bot_dir settings u "work");
   Mkdir (bot_user_dir settings u); Mkdir (bot_dir settings u "downloads");
   Mkdir (bot_user_dir settings u); Mkdir (bot_dir settings u "output")].

(** A store in which user 7 collects PDFs and has sent two. *)
Definition store_two_pdfs : store :=
  {| USER_STATE := {[ 7 := {[ "menu" := PStr (lit "file");
                              "action" := PStr (lit "merge_collect") ]} ]};
     USER_PROXY := ∅;
     MERGE_BUCKET := {[ 7 := [Path (lit "storage/7/work/a.pdf");
                              Path (lit "storage/7/work/b.pdf")] ]};
     IMG_BUCKET := ∅ |}.

Definition press (d : string) : CallbackQuery :=
  {| q_from_user := 7; q_chat := 7; data := lit d |}.

(** The name under which a document is handled, its kind, and the place it
    is downloaded to (bot.py). *)
Definition doc_filename (file : Document) : str :=
  match file_name file with
  | Some ((_ :: _) as n) => n
  | _ => lit "file.bin"
  end.

Definition doc_kind (file : Document) : str :=
  (detect_content_type_from_name (doc_filename file)).1.

Definition bot_local_path (settings : Settings) (u : Z) (file : Document) : path :=
  path_div (bot_dir settings u "work") (safe_filename (doc_filename file)).

(** The exception of [download_telegram_file] for a document of [n] bytes. *)
Definition too_large (settings : Settings) (n : Z) : exn :=
  ValueError [T "File too large: "; Mb n; T " (limit ";
              D (max_telegram_file_mb settings); T " MB)."].

(** The states in which a document of this kind is downloaded. *)
Definition downloads_document (σ : store) (u : Z) (file : Document) : Prop :=
  action_of σ u = PStr (lit "zip_wait_file")
  ∨ action_of σ u = PStr (lit "unzip_wait_zip")
  ∨ action_of σ u = PStr (lit "rename_wait_file")
  ∨ (action_of σ u = PStr (lit "merge_collect") ∧ doc_kind file = lit "pdf")
  ∨ (action_of σ u = PStr (lit "img2pdf_collect") ∧ doc_kind file = lit "image").

(** The single-shot actions, the menu each one belongs to, and the kind of
    message each one takes: a document for zip and unzip, a text for the new
    name of a rename (the proxy and text-to-PDF branches read the text of
    any message). *)
Definition single_shot : list string :=
  ["zip_wait_file"; "unzip_wait_zip"; "text2pdf_wait_text"; "proxy_wait";
   "rename_wait_newname"]%string.

Definition menu_after (a : string) : string :=
  if String.eqb a "proxy_wait" then "proxy"%string else "file"%string.

Definition accepted_kind (a : string) (message : Message) : Prop :=
  (a ∈ ["zip_wait_file"; "unzip_wait_zip"]%string → is_Some (document message))
  ∧ (a = "rename_wait_newname"%string → document message = None).

(** The call that ends a successful single-shot flow: the result is sent,
    or the proxy is confirmed. *)
Definition is_delivery (c : call) : bool :=
  match c with
  | SendDocument _ _ _ => true
  | Reply [T s] None => String.eqb s "Proxy saved ✅"
  | _ => false
  end.

Definition delivered (l : list call) : Prop :=
  ∃ c, last l = Some c ∧ is_delivery c = true.

(** The download of a document, the file operation and the delivery of
    the result: the calls of a flow that can fail. *)
Definition is_operation (c : call) : bool :=
  match c with
  | BotDownload _ _ | ZipPaths _ _ | UnzipToDir _ _ | Rename _ _
  | TextToPdf _ _ | SendDocument _ _ _ => true
  | _ => false
  end.

(** An outside world in which zipping fails. *)
Definition zip_fails : env :=
  {| fails := λ c, match c with
                   | ZipPaths _ _ => Some (OtherError [T "OSError"])
                   | _ => None
                   end;
     holds := λ _, true; found := λ _, [lit "downloaded"] |}.

(** What can change the merge buffer of user [v]: the buttons that select
    the collection again or clear it leave the empty list, the cancel and
    done buttons remove the buffer, a PDF document received while collecting
    is appended. *)
Definition merge_change (settings : Settings) (u : Bot.update) (σ σ' : store)
    (v : Z) : Prop :=
  match u with
  | Bot.OnStart _ => False
  | Bot.OnMessage m =>
      v = from_user m ∧ action_of σ v = PStr (lit "merge_collect")
      ∧ ∃ file, document m = Some file ∧ doc_kind file = lit "pdf"
         ∧ MERGE_BUCKET σ' !! v
           = Some (default [] (MERGE_BUCKET σ !! v) ++ [bot_local_path settings v file])
  | Bot.OnCallback q =>
      v = q_from_user q
      ∧ (((data q = lit "file:mergepdf" ∨ data q = lit "merge:clear")
          ∧ MERGE_BUCKET σ' !! v = Some [])
         ∨ ((data q = lit "merge:cancel" ∨ data q = lit "merge:done")
            ∧ MERGE_BUCKET σ' !! v = None))
  end.

(** The same for the image buffer. *)
Definition img_change (settings : Settings) (u : Bot.update) (σ σ' : store)
    (v : Z) : Prop :=
  match u with
  | Bot.OnStart _ => False
  | Bot.OnMessage m =>
      v = from_user m ∧ action_of σ v = PStr (lit "img2pdf_collect")
      ∧ ∃ file, document m = Some file ∧ doc_kind file = lit "image"
         ∧ IMG_BUCKET σ' !! v
           = Some (default [] (IMG_BUCKET σ !! v) ++ [bot_local_path settings v file])
  | Bot.OnCallback q =>
      v = q_from_user q
      ∧ (((data q = lit "file:img2pdf" ∨ data q = lit "imgpdf:clear")
          ∧ IMG_BUCKET σ' !! v = Some [])
         ∨ ((data q = lit "imgpdf:cancel" ∨ data q = lit "imgpdf:done")
            ∧ IMG_BUCKET σ' !! v = None))
  end.

(** ** Notions used by the further properties *)

(** The characters of [str(n)]: digits and the minus sign. *)
Definition decimal_char (c : N) : Prop := c = 45%N ∨ (48 ≤ c ≤ 57)%N.

(** The three directories of a user. *)
Definition areas : list string := ["work"; "downloads"; "output"]%string.

(** ** utils.py / app.py: the lines drawn by text_to_pdf *)

(** The characters at which [str.splitlines()] breaks a text. *)
Definition linebreak (c : N) : bool :=
  ((c =? 10) || (c =? 13) || (c =? 11) || (c =? 12)
   || (c =? 0x1C) || (c =? 0x1D) || (c =? 0x1E) || (c =? 0x85)
   || (c =? 0x2028) || (c =? 0x2029))%N.

(** [text.splitlines()]: [cur] is the line being read, [after_cr] tells that
    the previous character was a carriage return, whose line feed is part
    of the same break.  A text that ends with a break has no empty last
    line. *)
Fixpoint splitlines_from (after_cr : bool) (cur : str) (s : str) : list str :=
  match s with
  | [] => match cur with [] => [] | _ => [cur] end
  | c :: t =>
      if after_cr && (c =? 10)%N then splitlines_from false cur t
      else if linebreak c then cur :: splitlines_from (c =? 13)%N [] t
      else splitlines_from false (cur ++ [c]) t
  end.

Definition splitlines (s : str) : list str := splitlines_from false [] s.

(** [s.rstrip(chars)] for the one character [ch]. *)
Fixpoint rstrip_char (ch : N) (s : str) : str :=
  match s with
  | [] => []
  | c :: t =>
      match rstrip_char ch t with
      | [] => if (c =? ch)%N then [] else [c]
      | r => c :: r
      end
  end.

(** The [while s:] loop of [wrap_line]; it stops when [s] is empty, [None]
    tells that [fuel] rounds did not reach that point. *)
Fixpoint wrap_loop (fuel : nat) (max_chars : nat) (s : str) : option (list str) :=
  match s with
  | [] => Some []
  | _ :: _ =>
      match fuel with
      | O => None
      | S fuel' =>
          match wrap_loop fuel' max_chars (drop max_chars s) with
          | Some chunks => Some (take max_chars s :: chunks)
          | None => None
          end
      end
  end.

(** [wrap_line(s, max_chars)] of utils.text_to_pdf, for [max_chars >= 0]; one
    round per character is enough whenever the loop ends. *)
Definition wrap_line (s : str) (max_chars : nat) : option (list str) :=
  let s := rstrip_char 10 s in
  if bool_decide (length s ≤ max_chars)%nat then Some [s]
  else wrap_loop (length s) max_chars s.

(** [range(0, stop, step)] for a positive [step]. *)
Definition range_by (stop step : nat) : list nat :=
  (λ k, k * step)%nat <$> seq 0 ((stop + step - 1) / step).

(** [wrap(s, max_chars)] of app.text_to_pdf; [None] stands for the
    [ValueError] of a range with step zero. *)
Definition app_wrap (s : str) (max_chars : nat) : option (list str) :=
  let s := rstrip_char 10 s in
  if bool_decide (length s ≤ max_chars)%nat then Some [s]
  else match max_chars with
       | O => None
       | _ => Some ((λ i, take max_chars (drop i s)) <$> range_by (length s) max_chars)
       end.

(** The strings that [text_to_pdf] hands to [drawString], in order: the
    wrapped lines of [text.splitlines() or [""]]. *)
Definition drawn_lines (text : str) : option (list str) :=
  let raw := match splitlines text with [] => [[]] | ls => ls end in
  match mapM (λ raw_line, wrap_line raw_line 95) raw with
  | Some wrapped => Some (concat wrapped)
  | None => None
  end.

(** The names that [guess_downloader] can return. *)
Definition downloader_names : list str :=
  lit <$> ["pixeldrain"; "gdrive"; "mega"; "youtube"; "unknown"]%string.

(** The bytes of the file at [p], when there is one. *)
Definition file_data (f : Fs.fs) (p : path) : option (list N) :=
  match Fs.lookup f p with
  | Some (Fs.File _ data) => Some data
  | _ => None
  end.

(* ================================================================== *)
(** * Properties *)

(** ** safe_filename *)

Example safe_filename_ex1 :
  safe_filename (lit "  my  file<1>.txt ") = lit "my file_1_.txt".
Proof. reflexivity. Qed.

Example safe_filename_ex2 :
  safe_filename (lit "a" ++ [9; 9] ++ lit "b" ++ [10; 0xA0] ++ lit "c")%N
  = lit "a__b c".
Proof. reflexivity. Qed.

Example safe_filename_ex3 :
  safe_filename [0x2003; 97; 0x3000; 0x2009; 98; 0xA0]%N = [97; 32; 98]%N.
Proof. reflexivity. Qed.

Lemma illegal_space : illegal 32 = false.
Proof. reflexivity. Qed.

Lemma tidy_weaken b s : tidy true s -> tidy b s.
Proof.
  destruct s as [|c t]; simpl; [done|].
  intros [Hc H]. split; [done|].
  destruct (isspace c); [|done]. by destruct H as (_ & ? & _).
Qed.

Lemma tidy_legal b s : tidy b s -> Forall (fun c => illegal c = false) s.
Proof.
  revert b. induction s as [|c t IH]; intros b; simpl; [constructor|].
  intros [Hc H]. constructor; [done|].
  destruct (isspace c); [destruct H as (_ & _ & H)|]; eauto.
Qed.

Lemma tidy_take b n s : tidy b s -> tidy b (take n s).
Proof.
  revert b n. induction s as [|c t IH]; intros b [|n]; simpl; try done.
  intros [Hc H]. split; [done|].
  destruct (isspace c); [destruct H as (? & ? & H)|]; eauto.
Qed.

Lemma tidy_rstrip b s : tidy b s -> tidy b (rstrip s).
Proof.
  revert b. induction s as [|c t IH]; intros b; simpl; [done|].
  intros [Hc H].
  assert (Ht : tidy (isspace c) (rstrip t)).
  { destruct (isspace c); [destruct H as (_ & _ & H)|]; eauto. }
  destruct (rstrip t) as [|d r] eqn:E.
  - destruct (isspace c) eqn:Ec; simpl; [done|]. by rewrite Ec.
  - simpl. split; [done|].
    destruct (isspace c); [|done]. by destruct H as (? & ? & _).
Qed.

Lemma tidy_lstrip s : tidy true s -> lstrip s = s.
Proof.
  destruct s as [|c t]; simpl; [done|]. intros [_ H].
  destruct (isspace c); [|done]. by destruct H as (_ & ? & _).
Qed.

Lemma tidy_replace_nl b s : tidy b s -> replace_char 10 32 s = s.
Proof.
  intros H%tidy_legal. unfold replace_char.
  induction H as [|c t Hc _ IH]; simpl; [done|]. f_equal; [|done].
  destruct (N.eqb_spec c 10) as [->|]; [discriminate Hc | done].
Qed.

Lemma tidy_sub_illegal b s : tidy b s -> sub_illegal s = s.
Proof.
  intros H%tidy_legal. unfold sub_illegal.
  induction H as [|c t Hc _ IH]; simpl; [done|]. rewrite Hc. f_equal. exact IH.
Qed.

Lemma tidy_sub_ws b s : tidy b s -> sub_ws b s = s.
Proof.
  revert b. induction s as [|c t IH]; intros b; simpl; [done|].
  intros [Hc H]. destruct (isspace c).
  - destruct H as (-> & -> & H). by rewrite (IH true).
  - by rewrite (IH false).
Qed.

Lemma sub_ws_tidy b s :
  Forall (fun c => illegal c = false) s -> tidy b (sub_ws b s).
Proof.
  intros H. revert b. induction H as [|c t Hc _ IH]; intros b; simpl; [done|].
  destruct (isspace c) eqn:Ec.
  - destruct b; [apply IH|]. simpl. repeat split; auto.
  - simpl. rewrite Ec. auto.
Qed.

Lemma sub_illegal_legal s : Forall (fun c => illegal c = false) (sub_illegal s).
Proof.
  unfold sub_illegal. induction s as [|c t IH]; simpl; constructor; [|done].
  by destruct (illegal c) eqn:E.
Qed.

Lemma lstrip_head s : match lstrip s with [] => True | c :: _ => isspace c = false end.
Proof.
  induction s as [|c t IH]; simpl; [done|].
  by destruct (isspace c) eqn:E.
Qed.

Lemma rstrip_head s :
  match s with [] => True | c :: _ => isspace c = false end ->
  match rstrip s with [] => True | c :: _ => isspace c = false end.
Proof.
  destruct s as [|c t]; simpl; [done|]. intros Hc.
  destruct (rstrip t); [by rewrite Hc | done].
Qed.

Lemma sub_ws_head b s :
  match s with [] => True | c :: _ => isspace c = false end ->
  sub_ws b s = sub_ws true s.
Proof. destruct s as [|c t]; simpl; [done|]. by intros ->. Qed.

(** The name before the cut is tidy and does not start with white space. *)
Lemma safe_filename_body_tidy x : tidy true (safe_filename_body x).
Proof.
  unfold safe_filename_body.
  rewrite (sub_ws_head false).
  - apply sub_ws_tidy, sub_illegal_legal.
  - pose proof (rstrip_head _ (lstrip_head x)) as H. fold (strip x) in H.
    destruct (strip x) as [|c t]; simpl; [done|].
    destruct (N.eqb_spec c 10) as [->|]; [discriminate H|].
    destruct (illegal c); [reflexivity | done].
Qed.

Lemma safe_filename_tidy x : tidy true (safe_filename x).
Proof.
  unfold safe_filename. pose proof (safe_filename_body_tidy x).
  destruct (N.ltb _ _); [by apply tidy_take | done].
Qed.

Lemma rstrip_length s : (length (rstrip s) <= length s)%nat.
Proof.
  induction s as [|c t IH]; simpl; [done|].
  destruct (rstrip t); [destruct (isspace c)|]; simpl in *; lia.
Qed.

Lemma safe_filename_length x : (length (safe_filename x) <= 180)%nat.
Proof.
  unfold safe_filename.
  destruct (N.ltb_spec 180 (N.of_nat (length (safe_filename_body x)))).
  - rewrite length_take. lia.
  - lia.
Qed.

(** On a tidy name of at most 180 characters the function only removes a
    trailing space. *)
Lemma safe_filename_on_tidy s :
  tidy true s -> (length s <= 180)%nat -> safe_filename s = rstrip s.
Proof.
  intros Hs Hlen.
  assert (Hr : tidy true (rstrip s)) by by apply tidy_rstrip.
  assert (Hb : safe_filename_body s = rstrip s).
  { unfold safe_filename_body, strip. rewrite (tidy_lstrip s Hs).
    rewrite (tidy_replace_nl _ _ Hr), (tidy_sub_illegal _ _ Hr).
    apply tidy_sub_ws. by apply tidy_weaken. }
  unfold safe_filename. rewrite Hb.
  pose proof (rstrip_length s).
  destruct (N.ltb_spec 180 (N.of_nat (length (rstrip s)))); [lia | done].
Qed.

Lemma rstrip_idemp s : rstrip (rstrip s) = rstrip s.
Proof.
  induction s as [|c t IH]; simpl; [done|].
  destruct (rstrip t) as [|d r] eqn:E.
  - destruct (isspace c) eqn:Ec; simpl; [done|]. by rewrite Ec.
  - change (rstrip (c :: d :: r) = c :: d :: r).
    change (rstrip (c :: d :: r)) with
      (match rstrip (d :: r) with [] => if isspace c then [] else [c] | r' => c :: r' end).
    by rewrite IH.
Qed.

(** C1, as the code has it: safe_filename never returns a character of the
    illegal class (the nine listed characters and the code points
    0x00-0x1F), never returns more than 180 characters, and applying it a
    second time only strips the white space that the cut to 180 characters
    may have left at the end; from the second application on the result is
    stable. *)
Theorem safe_filename_spec (x : str) :
  Forall (fun c => illegal c = false) (safe_filename x)
  /\ (length (safe_filename x) <= 180)%nat
  /\ safe_filename (safe_filename x) = rstrip (safe_filename x)
  /\ safe_filename (safe_filename (safe_filename x))
     = safe_filename (safe_filename x).
Proof.
  pose proof (safe_filename_tidy x) as Ht.
  pose proof (safe_filename_length x) as Hl.
  assert (E : safe_filename (safe_filename x) = rstrip (safe_filename x))
    by by apply safe_filename_on_tidy.
  repeat split; [by eapply tidy_legal | done | done |].
  rewrite E. rewrite safe_filename_on_tidy.
  - apply rstrip_idemp.
  - by apply tidy_rstrip.
  - pose proof (rstrip_length (safe_filename x)). lia.
Qed.

(** C1 as stated fails: safe_filename is not idempotent on [long_name]; the
    first application cuts after the space, the second strips it. *)
Lemma safe_filename_not_idempotent :
  safe_filename (safe_filename long_name) <> safe_filename long_name.
Proof. vm_compute. discriminate. Qed.

Example safe_filename_long_name :
  safe_filename long_name = replicate 179 97%N ++ [32%N]
  /\ safe_filename (safe_filename long_name) = replicate 179 97%N.
Proof. split; vm_compute; reflexivity. Qed.

(** ** guess_downloader *)

Lemma guess_downloader_cases url :
  guess_downloader url =
    if has_marker "pixeldrain.com" url then lit "pixeldrain"
    else if has_marker "drive.google.com" url then lit "gdrive"
    else if has_marker "mega.nz" url then lit "mega"
    else if has_marker "youtu" url || has_marker "youtube.com" url then lit "youtube"
    else lit "unknown".
Proof. reflexivity. Qed.

(** C8, as the code has it: the markers are tested in the order
    pixeldrain.com, drive.google.com, mega.nz, youtu, and the service of
    the first marker found is returned.  A URL with the pixeldrain.com
    marker is classified pixeldrain; a URL with the drive.google.com marker
    and not the one tested before is classified gdrive; a URL with the
    mega.nz marker and neither of the two tested before is classified mega;
    a URL with a YouTube marker and none of the three tested before is
    classified youtube; a URL with none of the markers is classified
    unknown.  The three sample URLs of the specification are classified
    youtube, mega and unknown. *)
Theorem guess_downloader_spec (url : str) :
  (has_marker "pixeldrain.com" url = true →
   guess_downloader url = lit "pixeldrain")
  ∧ (has_marker "pixeldrain.com" url = false →
     has_marker "drive.google.com" url = true →
     guess_downloader url = lit "gdrive")
  ∧ (has_marker "pixeldrain.com" url = false →
     has_marker "drive.google.com" url = false →
     has_marker "mega.nz" url = true →
     guess_downloader url = lit "mega")
  ∧ (has_marker "pixeldrain.com" url = false →
     has_marker "drive.google.com" url = false →
     has_marker "mega.nz" url = false →
     has_marker "youtu" url = true ∨ has_marker "youtube.com" url = true →
     guess_downloader url = lit "youtube")
  ∧ (has_marker "pixeldrain.com" url = false →
     has_marker "drive.google.com" url = false →
     has_marker "mega.nz" url = false →
     has_marker "youtu" url = false →
     has_marker "youtube.com" url = false →
     guess_downloader url = lit "unknown")
  ∧ guess_downloader (lit "https://youtu.be/abc123") = lit "youtube"
  ∧ guess_downloader (lit "https://mega.nz/file/xyz") = lit "mega"
  ∧ guess_downloader (lit "https://example.com/file") = lit "unknown".
Proof.
  rewrite guess_downloader_cases.
  split; [by intros ->|].
  split; [by intros -> ->|].
  split; [by intros -> -> ->|].
  split; [intros -> -> -> [-> | ->]; [done | by rewrite orb_true_r]|].
  split; [by intros -> -> -> -> ->|].
  repeat split.
Qed.

Lemma guess_downloader_spec_witness :
  guess_downloader (lit "https://PixelDrain.com/u/AbC123") = lit "pixeldrain"
  ∧ guess_downloader (lit "https://drive.google.com/file/d/1/view?u=mega.nz") = lit "gdrive"
  ∧ guess_downloader (lit " https://mega.nz/folder/q ") = lit "mega"
  ∧ guess_downloader (lit "HTTPS://WWW.YouTube.com/watch?v=1") = lit "youtube"
  ∧ guess_downloader (lit "ftp://host/file") = lit "unknown".
Proof.
  split; [|split; [|split; [|split]]].
  - apply (proj1 (guess_downloader_spec (lit "https://PixelDrain.com/u/AbC123")));
      reflexivity.
  - apply (proj1 (proj2 (guess_downloader_spec
                           (lit "https://drive.google.com/file/d/1/view?u=mega.nz"))));
      reflexivity.
  - apply (proj1 (proj2 (proj2 (guess_downloader_spec (lit " https://mega.nz/folder/q ")))));
      reflexivity.
  - apply (proj1 (proj2 (proj2 (proj2
                   (guess_downloader_spec (lit "HTTPS://WWW.YouTube.com/watch?v=1"))))));
      try reflexivity. right. reflexivity.
  - apply (proj1 (proj2 (proj2 (proj2 (proj2
                   (guess_downloader_spec (lit "ftp://host/file")))))));
      reflexivity.
Defined.

(** C8 as stated fails: [redirect_url] contains a YouTube marker and is not
    classified youtube, the mega.nz test comes first. *)
Lemma guess_downloader_youtube_marker_not_youtube :
  has_marker "youtube.com" redirect_url = true
  ∧ has_marker "youtu" redirect_url = true
  ∧ guess_downloader redirect_url ≠ lit "youtube".
Proof. repeat split. vm_compute. discriminate. Qed.

(** ** zip_paths *)

Lemma relative_to_app (a b : path) : relative_to (a ++ b) a = Some b.
Proof.
  induction a as [|w a IH]; simpl; [by destruct b|].
  by rewrite bool_decide_eq_true_2.
Qed.

Lemma path_parent_name (p : path) :
  path_tail p ≠ [] → p = path_parent p ++ [path_name p].
Proof.
  intros Ht. unfold path_parent, path_name.
  destruct (path_tail p) as [|w ws] eqn:E; [done|]. rewrite <- E.
  assert (Hl : List.last (path_tail p) [] = List.last p []).
  { unfold path_tail in *. destruct p as [|v vs]; [done|].
    destruct (is_root v); [|done]. subst vs. reflexivity. }
  rewrite Hl. apply app_removelast_last.
  intros ->. discriminate E.
Qed.

(** The names from the parent of [p] to an entry below [p]. *)
Lemma relative_to_parent (p rel : path) :
  relative_to (p ++ rel) (path_parent p)
  = Some (match path_tail p with [] => [] | _ => [path_name p] end ++ rel).
Proof.
  destruct (path_tail p) as [|w ws] eqn:Ht.
  - unfold path_parent. rewrite Ht. apply relative_to_app.
  - assert (Hne : path_tail p ≠ []) by (by rewrite Ht).
    rewrite (path_parent_name p Hne) at 1. rewrite <- app_assoc.
    apply relative_to_app.
Qed.

Lemma zip_dir_members (p : path) (es : list (list str * Fs.node)) :
  zip_dir (path_parent p) ((λ e, (p ++ e.1, e.2)) <$> es)
  = Ok (members (match path_tail p with [] => [] | _ => [path_name p] end) es).
Proof.
  induction es as [|[rel n] es IH]; [done|].
  rewrite fmap_cons. cbn [zip_dir fst snd]. rewrite IH.
  rewrite relative_to_parent. by destruct n.
Qed.

Lemma elem_of_members (top : list str) (es : list (list str * Fs.node))
    (name : str) (data : list N) :
  (name, data) ∈ members top es ↔
  ∃ rel mtime, (rel, Fs.File mtime data) ∈ es ∧ name = path_str (top ++ rel).
Proof.
  unfold members. rewrite list_elem_of_bind. split.
  - intros ([rel [mt d | mt cs]] & Hin & He); simpl in Hin.
    + apply list_elem_of_singleton in Hin. injection Hin as -> ->. eauto.
    + by apply elem_of_nil in Hin.
  - intros (rel & mt & He & ->). exists (rel, Fs.File mt data).
    split; [|done]. simpl. by apply list_elem_of_singleton.
Qed.

Lemma node_rect_nested (P : Fs.node → Prop) :
  (∀ mtime data, P (Fs.File mtime data)) →
  (∀ mtime cs, Forall (λ e, P e.2) cs → P (Fs.Dir mtime cs)) →
  ∀ n, P n.
Proof.
  intros HF HD. fix IH 1. intros [mt d | mt cs]; [apply HF|].
  apply HD. induction cs as [|[w c] cs IHcs]; constructor; [apply IH | apply IHcs].
Qed.

Lemma child_elem (w : str) (c : Fs.node) (cs : list (str * Fs.node)) :
  NoDup cs.*1 → (Fs.child w cs = Some c ↔ (w, c) ∈ cs).
Proof.
  induction cs as [|[w' c'] cs IH]; simpl.
  - intros _. split; [done|]. intros H. by apply elem_of_nil in H.
  - intros [Hw Hnd]%NoDup_cons. rewrite elem_of_cons. case_bool_decide as Hd.
    + subst w'. split.
      * intros [= ->]. by left.
      * intros [[= ->] | Hin]; [done|]. exfalso. apply Hw.
        apply list_elem_of_fmap. by exists (w, c).
    + rewrite (IH Hnd). split; [by right|]. intros [[= -> ->] | Hin]; done.
Qed.

Lemma well_formed_dir (mtime : Z) (cs : list (str * Fs.node)) :
  well_formed (Fs.Dir mtime cs) = true →
  NoDup cs.*1
  ∧ ∀ w c, (w, c) ∈ cs → contains [47%N] w = false ∧ well_formed c = true.
Proof.
  cbn [well_formed]. intros [Hnd Hall]%andb_true_iff.
  apply bool_decide_eq_true_1 in Hnd. split; [done|].
  intros w c Hin. rewrite forallb_forall in Hall.
  apply list_elem_of_In, Hall in Hin. simpl in Hin.
  apply andb_true_iff in Hin as [Hs Hc]. by apply negb_true_iff in Hs.
Qed.

(** The enumeration of [rglob] against the tree: the entries listed are the
    nodes that a non-empty sequence of names leads to. *)
Lemma walk_find (n : Fs.node) :
  well_formed n = true →
  ∀ rel m, (rel, m) ∈ Fs.walk n ↔ rel ≠ [] ∧ Fs.find n rel = Some m.
Proof.
  induction n as [mt d | mt cs IH] using node_rect_nested; intros Hwf rel m.
  - simpl. split; [intros H; by apply elem_of_nil in H|].
    intros [Hne H]. by destruct rel.
  - destruct (well_formed_dir _ _ Hwf) as [Hnd Hcs].
    cbn [Fs.walk]. rewrite elem_of_app, list_elem_of_fmap, list_elem_of_bind. split.
    + intros [([w c] & [= -> ->] & Hin) | ([w c] & Hx & Hin)].
      * split; [done|]. cbn [Fs.find fst snd].
        by rewrite (proj2 (child_elem w c cs Hnd) Hin).
      * apply list_elem_of_fmap in Hx as ([rel' m'] & [= -> ->] & Hx).
        cbn [fst snd] in *. split; [done|]. cbn [Fs.find].
        rewrite (proj2 (child_elem w c cs Hnd) Hin).
        rewrite Forall_forall in IH.
        apply (IH (w, c) Hin (proj2 (Hcs w c Hin))) in Hx. by destruct Hx.
    + intros [Hne Hf]. destruct rel as [|w rel']; [done|]. cbn [Fs.find] in Hf.
      destruct (Fs.child w cs) as [c|] eqn:Hc; [|done].
      apply (child_elem w c cs Hnd) in Hc.
      destruct rel' as [|w' rel''].
      * left. injection Hf as <-. by exists (w, c).
      * right. exists (w, c). split; [|done].
        apply list_elem_of_fmap. exists (w' :: rel'', m). split; [done|].
        rewrite Forall_forall in IH.
        apply (IH (w, c) Hc (proj2 (Hcs w c Hc))). by split.
Qed.

Lemma walk_names (n : Fs.node) :
  well_formed n = true →
  ∀ rel m, (rel, m) ∈ Fs.walk n → Forall (λ w, contains [47%N] w = false) rel.
Proof.
  induction n as [mt d | mt cs IH] using node_rect_nested; intros Hwf rel m.
  - simpl. intros H. by apply elem_of_nil in H.
  - destruct (well_formed_dir _ _ Hwf) as [Hnd Hcs].
    cbn [Fs.walk]. rewrite elem_of_app, list_elem_of_fmap, list_elem_of_bind.
    intros [([w c] & [= -> ->] & Hin) | ([w c] & Hx & Hin)].
    + constructor; [|done]. by apply (Hcs w c).
    + apply list_elem_of_fmap in Hx as ([rel' m'] & [= -> ->] & Hx).
      cbn [fst snd] in *. constructor; [by apply (Hcs w c)|].
      rewrite Forall_forall in IH.
      by apply (IH (w, c) Hin (proj2 (Hcs w c Hin)) rel' m').
Qed.

Lemma find_app (n : Fs.node) (a b : list str) :
  Fs.find n (a ++ b) = Fs.find n a ≫= λ m, Fs.find m b.
Proof.
  revert n. induction a as [|w a IH]; intros n; [done|].
  cbn [app Fs.find]. destruct n as [|mt cs]; [done|].
  destruct (Fs.child w cs); [apply IH | done].
Qed.

Lemma find_well_formed (n m : Fs.node) (a : list str) :
  well_formed n = true → Fs.find n a = Some m → well_formed m = true.
Proof.
  revert n. induction a as [|w a IH]; intros n Hwf; [by intros [= <-]|].
  cbn [Fs.find]. destruct n as [|mt cs]; [done|].
  destruct (well_formed_dir _ _ Hwf) as [Hnd Hcs].
  destruct (Fs.child w cs) as [c|] eqn:Hc; [|done].
  apply (child_elem w c cs Hnd) in Hc. apply IH. by apply (Hcs w c).
Qed.

Lemma lookup_well_formed (f : Fs.fs) (p : path) (n : Fs.node) :
  well_formed (Fs.root f) = true → Fs.lookup f p = Some n → well_formed n = true.
Proof.
  unfold Fs.lookup. intros Hwf.
  destruct (is_absolute p); by apply find_well_formed.
Qed.

(** Below a path that leads to [n], a relative path leads where its names
    lead from [n]. *)
Lemma lookup_app (f : Fs.fs) (p rel : path) (n : Fs.node) :
  Fs.lookup f p = Some n → is_absolute rel = false →
  Fs.lookup f (p ++ rel) = Fs.find n rel.
Proof.
  unfold Fs.lookup. intros Hp Hrel. destruct p as [|w ws].
  - cbn [app]. rewrite Hrel. simpl in Hp. rewrite app_nil_r in Hp.
    by rewrite find_app, Hp.
  - cbn [app is_absolute] in *. unfold path_tail in *.
    destruct (is_root w).
    + by rewrite find_app, Hp.
    + change (w :: ws ++ rel) with ((w :: ws) ++ rel).
      by rewrite (app_assoc (Fs.cwd f)), find_app, Hp.
Qed.

Lemma names_relative (rel : list str) :
  Forall (λ w, contains [47%N] w = false) rel → is_absolute rel = false.
Proof.
  destruct rel as [|w rel]; [done|]. intros [Hw _]%Forall_cons.
  unfold is_absolute, is_root. destruct w as [|c w]; [done|].
  cbn [contains] in Hw. by apply orb_false_iff in Hw as [-> _].
Qed.

(** C7, as the code has it: on a file system whose directories have
    distinct names without slashes, when [zip_paths] is given a path that
    leads to a directory, the members of the archive are exactly the files
    below this directory, each one (found at the path of the directory
    extended by a relative path) under the name that is its path relative
    to the parent of the directory.  This name is the name of the directory
    followed by the names leading from the directory to the file when the
    path of the directory has a name; when it has none (the current
    directory or the root) the parent is the directory itself and the name
    is relative to it.  A path that leads to a file gives one member under
    the bare name of the file. *)
Theorem zip_paths_arcnames (f : Fs.fs) (p : path) (n : Fs.node) :
  well_formed (Fs.root f) = true →
  Fs.lookup f p = Some n →
  match n with
  | Fs.Dir _ _ =>
      let top := match path_tail p with [] => [] | _ => [path_name p] end in
      ∃ a, zip_paths f [p] = Ok a
           ∧ (∀ name data,
                (name, data) ∈ a ↔
                ∃ rel mtime,
                  rel ≠ [] ∧ is_absolute rel = false
                  ∧ Fs.lookup f (p ++ rel) = Some (Fs.File mtime data)
                  ∧ name = path_str (top ++ rel))
           ∧ (∀ rel, relative_to (p ++ rel) (path_parent p) = Some (top ++ rel))
  | Fs.File _ data => zip_paths f [p] = Ok [(path_name p, data)]
  end.
Proof.
  intros Hwf Hn. destruct n as [mt data | mt cs].
  - unfold zip_paths, Fs.is_dir. rewrite Hn. reflexivity.
  - intros top. pose proof (lookup_well_formed f p _ Hwf Hn) as Hwn.
    exists (members top (Fs.walk (Fs.Dir mt cs))). split; [|split].
    + unfold zip_paths, Fs.is_dir, Fs.rglob. rewrite Hn.
      rewrite (zip_dir_members p). cbn. by rewrite app_nil_r.
    + intros name data. rewrite elem_of_members. split.
      * intros (rel & mt' & Hin & ->). exists rel, mt'.
        pose proof (names_relative rel (walk_names _ Hwn _ _ Hin)) as Hrel.
        apply (walk_find _ Hwn) in Hin as [Hne Hf].
        by rewrite (lookup_app f p rel _ Hn Hrel).
      * intros (rel & mt' & Hne & Hrel & Hl & ->). exists rel, mt'.
        split; [|done]. apply (walk_find _ Hwn).
        by rewrite (lookup_app f p rel _ Hn Hrel) in Hl.
    + intros rel. apply relative_to_parent.
Qed.

Lemma zip_paths_arcnames_witness :
  (∃ a, zip_paths sample_fs [Path (lit "storage/1")] = Ok a
        ∧ (∀ name data,
             (name, data) ∈ a ↔
             ∃ rel mtime,
               rel ≠ [] ∧ is_absolute rel = false
               ∧ Fs.lookup sample_fs (Path (lit "storage/1") ++ rel)
                 = Some (Fs.File mtime data)
               ∧ name = path_str ([lit "1"] ++ rel))
        ∧ (∀ rel, relative_to (Path (lit "storage/1") ++ rel)
                              (path_parent (Path (lit "storage/1")))
                  = Some ([lit "1"] ++ rel)))
  ∧ zip_paths sample_fs [Path (lit "/storage/1/o.bin")] = Ok [(lit "o.bin", [7%N])].
Proof.
  split.
  - exact (zip_paths_arcnames sample_fs (Path (lit "storage/1")) _ eq_refl eq_refl).
  - exact (zip_paths_arcnames sample_fs (Path (lit "/storage/1/o.bin")) _ eq_refl eq_refl).
Defined.

(** C7 as stated fails: the current directory, given as the path with the
    single dot, has no name and is its own parent; the members are named
    relative to the directory itself and its name, 1, is not the top-level
    entry of the archive. *)
Lemma zip_paths_current_directory :
  Fs.lookup sample_fs_in_1 (Path (lit ".")) = Fs.lookup sample_fs (Path (lit "/storage/1"))
  ∧ path_name (Path (lit ".")) = []
  ∧ zip_paths sample_fs_in_1 [Path (lit ".")]
    = Ok [(lit "o.bin", [7%N]); (lit "work/a.txt", [1; 2]%N)]
  ∧ zip_paths sample_fs [Path (lit "/storage/1")]
    = Ok [(lit "1/o.bin", [7%N]); (lit "1/work/a.txt", [1; 2]%N)].
Proof. repeat split. Qed.

(** ** cleanup_old *)

Lemma sweep_old_dirs cutoff (bp : path) (cs : list (str * Fs.node)) d r :
  dated cs = true →
  sweep cutoff ((λ e, (bp ++ [e.1], e.2)) <$> cs) d r
  = (Ok (d + Z.of_nat (length (old_dirs cutoff bp cs))), r ++ old_dirs cutoff bp cs).
Proof.
  revert d r. induction cs as [|[w n] cs IH]; intros d r Hd.
  - simpl. by rewrite Z.add_0_r, app_nil_r.
  - rewrite fmap_cons. cbn [sweep fst snd old_dirs omap list_omap].
    cbn [dated forallb snd] in Hd. apply andb_true_iff in Hd as [Hn Hd].
    destruct n as [mt data | mt sub].
    + by apply IH.
    + unfold fromtimestamp. rewrite Hn. destruct (mt <? cutoff).
      * rewrite IH by done. fold (old_dirs cutoff bp cs).
        rewrite <- app_assoc. do 2 f_equal. cbn [length]. lia.
      * by apply IH.
Qed.

Lemma sweep_app cutoff (cs cs' : list (path * Fs.node)) d r :
  sweep cutoff (cs ++ cs') d r
  = match sweep cutoff cs d r with
    | (Ok d', r') => sweep cutoff cs' d' r'
    | (Raise e, r') => (Raise e, r')
    end.
Proof.
  revert d r. induction cs as [|[q n] cs IH]; intros d r; [done|].
  cbn [app sweep]. destruct n as [mt data | mt sub]; [apply IH|].
  destruct (fromtimestamp mt); [|done]. destruct (_ <? _); apply IH.
Qed.

Lemma elem_of_old_dirs cutoff (bp : path) (cs : list (str * Fs.node)) q :
  q ∈ old_dirs cutoff bp cs ↔
  ∃ w mtime sub, (w, Fs.Dir mtime sub) ∈ cs ∧ mtime < cutoff ∧ q = bp ++ [w].
Proof.
  unfold old_dirs. rewrite list_elem_of_omap. split.
  - intros ([w n] & Hin & Hq). simpl in Hq.
    destruct n as [|mt sub]; [done|].
    destruct (Z.ltb_spec mt cutoff); [|done].
    injection Hq as <-. eauto 6.
  - intros (w & mt & sub & Hin & Hlt & ->).
    exists (w, Fs.Dir mt sub). split; [done|]. simpl.
    destruct (Z.ltb_spec mt cutoff); [done | lia].
Qed.



Example cleanup_old_sample :
  cleanup_old sample_fs (100 + 24 * 3600 * 1000000) (lit "storage") 24
  = (Ok 1, [Path (lit "storage/1")])
  ∧ cleanup_old sample_fs sample_now (lit "storage") 24
    = (Ok 2, [Path (lit "storage/1"); Path (lit "storage/2")]).
Proof. split; reflexivity. Qed.

(** ** The session machine *)

(** Running a handler: the monadic operations are unfolded, the data are
    left alone. *)
Ltac run :=
  cbv beta iota zeta delta
    [Bot.handle_message Bot.handle_document Bot.handle_newname Bot.handle_link
     Bot.download_telegram_file Bot.send_file Bot.user_proxy
     Bot.start Bot.menu_nav Bot.proxy_actions Bot.file_actions Bot.dl_actions
     Bot.merge_controls Bot.imgpdf_controls Bot.dispatch
     App.handle_message App.merge_controls App.imgpdf_controls App.user_dirs
     App.send_file App.download_telegram_document
     get_state set_state output_dir work_dir downloads_dir user_dir ensure_dir
     do_zip do_unzip do_rename do_text_to_pdf do_images_to_pdf do_merge_pdfs
     callback_cmd
     mbind mret M_bind M_ret say perform ask fetch modify get_store raise
     try_except try_finally].

(** The comparisons of a known action or command with the literals of the
    source are decided by computation. *)
Ltac decide_tests :=
  repeat (match goal with
  | |- context [action_is ?x ?b] =>
      let v := eval vm_compute in (action_is x b) in
      match v with true => idtac | false => idtac end;
      change (action_is x b) with v
  | |- context [equals ?x ?b] =>
      let v := eval vm_compute in (equals x b) in
      match v with true => idtac | false => idtac end;
      change (equals x b) with v
  | |- context [split1 ?c (lit ?a)] =>
      let v := eval vm_compute in (split1 c (lit a)) in
      change (split1 c (lit a)) with v
  end; cbv beta iota).

(** The log is brought to the form [l ++ [c1; ...; cn]]. *)
Ltac tidy_log := rewrite <- ?app_assoc; cbn [app].

Lemma action_of_fold σ u :
  default PNone (state_of σ u !! "action") = action_of σ u.
Proof. reflexivity. Qed.

Lemma idle_fold (menu : string) :
  ∅ ∪ ({[ "menu" := PStr (lit menu); "action" := from_option PStr PNone None ]}
        : gmap string pyval) = idle menu.
Proof. apply (left_id_L ∅ (∪)). Qed.

Lemma action_of_insert σ u st :
  action_of (with_USER_STATE <[u := st]> σ) u = default PNone (st !! "action").
Proof. unfold action_of, state_of. simpl. by rewrite lookup_insert_eq. Qed.

Lemma action_of_idle σ u menu :
  action_of (with_USER_STATE <[u := idle menu]> σ) u = PNone.
Proof. by rewrite action_of_insert. Qed.

(** *** The proxy value *)

(** C6, as the code has it: in the proxy_wait state a message is accepted
    exactly when its text, stripped of the white space around it, matches
    the pattern; the stripped text is then saved as the proxy of the user
    and the state becomes menu proxy, action none; any other message is
    answered with the prompt and the store is left as it was.  This holds
    for bot.py and for app.py. *)
Theorem proxy_wait_spec (E : env) (settings : Settings) (message : Message)
    (σ : store) (l : list call)
    (BASE : path) (MAX_TEXT_LEN : Z) (flows : Message → gmap string pyval → M unit) :
  action_of σ (from_user message) = PStr (lit "proxy_wait") →
  let u := from_user message in
  let p := strip (default [] (text message)) in
  Bot.handle_message E settings message σ l
  = (if PROXY_RE_match p
     then (Ok (), with_USER_STATE <[u := idle "proxy"]> (with_USER_PROXY <[u := p]> σ),
           l ++ [Reply [T "Proxy saved ✅"] None])
     else (Ok (), σ,
           l ++ [Reply [T "Proxy must start with http://, https://, or socks5://"] None]))
  ∧ App.handle_message E BASE MAX_TEXT_LEN flows message σ l
  = (if PROXY_RE_match p
     then (Ok (), with_USER_STATE <[u := idle "proxy"]> (with_USER_PROXY <[u := p]> σ),
           l ++ [Reply [T "Proxy saved ✅"] None])
     else (Ok (), σ,
           l ++ [Reply [T "Invalid proxy. Must start with http:// https:// or socks5://"] None])).
Proof.
  intros Ha u p. subst u p. split.
  - run. rewrite !action_of_fold, Ha. decide_tests.
    destruct (PROXY_RE_match _); cbn [negb]; [|reflexivity].
    by rewrite idle_fold.
  - run. rewrite !action_of_fold, Ha. decide_tests.
    destruct (PROXY_RE_match _); cbn [negb]; [|reflexivity].
    by rewrite idle_fold.
Qed.

Lemma proxy_wait_spec_witness :
  Bot.handle_message calm sample_settings (text_message "socks5://10.0.0.1:1080")
    (store_at "proxy" "proxy_wait") []
  = (Ok (),
     with_USER_STATE <[7 := idle "proxy"]>
       (with_USER_PROXY <[7 := lit "socks5://10.0.0.1:1080"]>
          (store_at "proxy" "proxy_wait")),
     [Reply [T "Proxy saved ✅"] None]).
Proof.
  exact (proj1 (proxy_wait_spec calm sample_settings
                  (text_message "socks5://10.0.0.1:1080")
                  (store_at "proxy" "proxy_wait") [] [] 0 (λ _ _, mret ())
                  eq_refl)).
Defined.

(** C6 as stated fails: a text with a leading space does not match the
    pattern, and it is accepted, its stripped form is saved. *)
Lemma proxy_wait_accepts_unmatched_text :
  PROXY_RE_match (lit " http://10.0.0.1:8080") = false
  ∧ let σ' := (Bot.handle_message calm sample_settings
                 (text_message " http://10.0.0.1:8080")
                 (store_at "proxy" "proxy_wait") []).1.2 in
    USER_PROXY σ' !! 7 = Some (lit "http://10.0.0.1:8080")
    ∧ action_of σ' 7 = PNone.
Proof. vm_compute. repeat split. Qed.

Example PROXY_RE_samples :
  PROXY_RE_match (lit "HTTP://host:80") = true
  ∧ PROXY_RE_match (lit "https://u:p@host:80") = true
  ∧ PROXY_RE_match (lit "ftp://x") = false
  ∧ PROXY_RE_match (lit "") = false
  ∧ PROXY_RE_match (lit "http//x") = false.
Proof. repeat split. Qed.

(** *** The second phase of a rename *)

(** C5: in the rename_wait_newname state, when the state has no rename_path
    and a new name arrives as a text, the handler sets the state of the user
    to menu file, action none, answers that the rename session expired, and
    makes no other call: no file is created, removed or renamed. *)
Theorem rename_session_expired (E : env) (settings : Settings)
    (message : Message) (σ : store) (l : list call) :
  action_of σ (from_user message) = PStr (lit "rename_wait_newname") →
  document message = None →
  strip (default [] (text message)) ≠ [] →
  state_of σ (from_user message) !! "rename_path" = None →
  let σ' := with_USER_STATE <[from_user message := idle "file"]> σ in
  let calls := [Reply [T "Rename session expired. Try again."] None] in
  Bot.handle_message E settings message σ l = (Ok (), σ', l ++ calls)
  ∧ action_of σ' (from_user message) = PNone
  ∧ Forall (λ c, touches_files c = false) calls.
Proof.
  intros Ha Hd Ht Hp σ' calls. subst σ' calls.
  split; [|split; [apply action_of_idle | by repeat constructor]].
  run. rewrite !action_of_fold, Ha, Hd. decide_tests.
  rewrite bool_decide_eq_false_2 by done.
  rewrite Hp. by rewrite idle_fold.
Qed.

Lemma rename_session_expired_witness :
  Bot.handle_message calm sample_settings (text_message "new.pdf")
    (store_at "file" "rename_wait_newname") []
  = (Ok (), with_USER_STATE <[7 := idle "file"]> (store_at "file" "rename_wait_newname"),
     [Reply [T "Rename session expired. Try again."] None]).
Proof.
  refine (proj1 (rename_session_expired calm sample_settings (text_message "new.pdf")
                   (store_at "file" "rename_wait_newname") [] eq_refl eq_refl _ eq_refl)).
  vm_compute. discriminate.
Defined.

(** *** Merge: the done button *)

(** C4: pressing merge done with fewer than 2 buffered PDFs is answered with
    the need-at-least-2 message and leaves the store, buffer included, as it
    was (bot.py and app.py); in app.py, more than 10 PDFs in free mode is
    answered with the guidance message and leaves the store as it was;
    otherwise, when the merge and the delivery succeed, the merge is called
    on the buffered list as it is, then the buffer of the user is removed
    and the state becomes menu file, action none. *)
Theorem merge_done_spec (E : env) (settings : Settings) (BASE : path)
    (FREE_MODE : bool) (q : CallbackQuery) (σ : store) (l : list call) :
  data q = lit "merge:done" →
  let u := q_from_user q in
  let pdfs := default [] (MERGE_BUCKET σ !! u) in
  let σ' := with_USER_STATE <[u := idle "file"]> (with_MERGE_BUCKET (delete u) σ) in
  let out := bot_output settings u (lit "merged.pdf") in
  let out' := app_output BASE u "merged.pdf" in
  ((length pdfs < 2)%nat →
   Bot.merge_controls E settings q σ l
   = (Ok (), σ, l ++ [Answer [T "Send at least 2 PDFs before merging."] None;
                      CallbackAnswer])
   ∧ App.merge_controls E BASE FREE_MODE q σ l
     = (Ok (), σ, l ++ [Answer [T "Send at least 2 PDFs."] None; CallbackAnswer]))
  ∧ ((10 < length pdfs)%nat → FREE_MODE = true →
     App.merge_controls E BASE FREE_MODE q σ l
     = (Ok (), σ, l ++ [Answer [T "Free mode: max 10 PDFs per merge."] None;
                        CallbackAnswer]))
  ∧ ((2 ≤ length pdfs)%nat →
     fails E (MergePdfs pdfs out) = None →
     holds E (Exists out) = true →
     fails E (SendDocument (q_chat q) out [Cut 900 [T "Merged PDF ✅"]]) = None →
     Bot.merge_controls E settings q σ l
     = (Ok (), σ',
        l ++ [Mkdir (bot_user_dir settings u); Mkdir (bot_dir settings u "output");
              Answer [T "Merging PDFs…"] None;
              MergePdfs pdfs out;
              Exists out;
              SendDocument (q_chat q) out [Cut 900 [T "Merged PDF ✅"]];
              CallbackAnswer]))
  ∧ ((2 ≤ length pdfs)%nat →
     FREE_MODE = false ∨ (length pdfs ≤ 10)%nat →
     fails E (MergePdfs pdfs out') = None →
     fails E (SendDocument (q_chat q) out' [Cut 900 [T "Merged PDF ✅"]]) = None →
     App.merge_controls E BASE FREE_MODE q σ l
     = (Ok (), σ',
        l ++ [Mkdir (app_dir BASE u "work"); Mkdir (app_dir BASE u "downloads");
              Mkdir (app_dir BASE u "output");
              Answer [T "Merging…"] None;
              MergePdfs pdfs out';
              SendDocument (q_chat q) out' [Cut 900 [T "Merged PDF ✅"]];
              CallbackAnswer])).
Proof.
  intros Hd u pdfs σ' out out'. subst u pdfs σ' out out'.
  unfold bot_output, app_output, bot_dir, app_dir, bot_user_dir.
  split; [|split; [|split]].
  - intros Hl. split.
    + run. rewrite Hd. decide_tests.
      rewrite bool_decide_eq_true_2 by done. by tidy_log.
    + run. rewrite Hd. decide_tests.
      rewrite bool_decide_eq_true_2 by done. by tidy_log.
  - intros Hl ->. run. rewrite Hd. decide_tests.
    rewrite bool_decide_eq_false_2 by lia.
    rewrite (bool_decide_eq_true_2 (10 < _)%nat) by done. cbn [andb]. by tidy_log.
  - intros Hl Hm He Hs. run. rewrite Hd. decide_tests.
    rewrite bool_decide_eq_false_2 by lia.
    rewrite Hm. cbv beta iota. rewrite He. cbn [negb]. rewrite Hs.
    rewrite idle_fold. by tidy_log.
  - intros Hl Hc Hm Hs. run. rewrite Hd. decide_tests.
    rewrite bool_decide_eq_false_2 by lia.
    assert (FREE_MODE && bool_decide (10 < length (default [] (MERGE_BUCKET σ !! q_from_user q)))%nat = false) as ->.
    { destruct Hc as [-> | Hc]; [done|].
      rewrite bool_decide_eq_false_2 by lia. apply andb_false_r. }
    cbn [snd]. rewrite Hm. cbv beta iota. rewrite Hs.
    rewrite idle_fold. by tidy_log.
Qed.

Lemma merge_done_spec_witness :
  let pdfs := [Path (lit "storage/7/work/a.pdf"); Path (lit "storage/7/work/b.pdf")] in
  let out := bot_output sample_settings 7 (lit "merged.pdf") in
  Bot.merge_controls calm sample_settings (press "merge:done") store_two_pdfs []
  = (Ok (),
     with_USER_STATE <[7 := idle "file"]> (with_MERGE_BUCKET (delete 7) store_two_pdfs),
     [Mkdir (bot_user_dir sample_settings 7); Mkdir (bot_dir sample_settings 7 "output");
      Answer [T "Merging PDFs…"] None;
      MergePdfs pdfs out;
      Exists out;
      SendDocument 7 out [Cut 900 [T "Merged PDF ✅"]];
      CallbackAnswer]).
Proof.
  refine (proj1 (proj2 (proj2 (merge_done_spec calm sample_settings [] true
                                 (press "merge:done") store_two_pdfs [] eq_refl)))
            _ eq_refl eq_refl eq_refl).
  vm_compute. lia.
Defined.

Example merge_done_one_pdf :
  let σ := with_MERGE_BUCKET <[7 := [Path (lit "a.pdf")]]> store_two_pdfs in
  Bot.merge_controls calm sample_settings (press "merge:done") σ []
  = (Ok (), σ, [Answer [T "Send at least 2 PDFs before merging."] None; CallbackAnswer]).
Proof. reflexivity. Qed.

(** *** Documents above the size limit *)

Lemma kind_equals (file : Document) (k : string) :
  doc_kind file = lit k →
  equals (detect_content_type_from_name (doc_filename file)).1 k = true.
Proof. intros H. unfold equals. by apply bool_decide_eq_true_2. Qed.

(** C3, as the code has it: when the (non-zero) size reported for a document
    exceeds the limit, [download_telegram_file] raises the too-large error
    before any download; the handler ends with this error after creating
    directories and sending the downloading notice only, nothing is fetched
    or written, and the store is left as it was: in a collection flow the
    action and the buffer are kept, and in the zip, unzip and rename flows
    the action is kept as well. *)
Theorem oversized_document (E : env) (settings : Settings) (message : Message)
    (file : Document) (n : Z) (σ : store) (l : list call) :
  document message = Some file →
  file_size file = Some n → n ≠ 0 →
  n > max_telegram_file_mb settings * 1024 * 1024 →
  let u := from_user message in
  downloads_document σ u file →
  ∃ notice,
    let calls := bot_dirs_calls settings u
                 ++ [Answer [T notice] None;
                     Mkdir (path_parent (bot_local_path settings u file))] in
    Bot.handle_message E settings message σ l
    = (Raise (too_large settings n), σ, l ++ calls)
    ∧ Forall (λ c, fetches_or_writes c = false) calls.
Proof.
  intros Hd Hs Hn Hgt u Ha. subst u.
  assert (Hbig : negb (n =? 0) && (n >? max_telegram_file_mb settings * 1024 * 1024) = true).
  { apply andb_true_intro. split.
    - apply negb_true_iff, Z.eqb_neq, Hn.
    - apply Z.gtb_lt. lia. }
  unfold bot_dirs_calls, bot_local_path, bot_dir, bot_user_dir, too_large, doc_filename.
  destruct Ha as [Ha | [Ha | [Ha | [[Ha Hk] | [Ha Hk]]]]];
    eexists; (split; [|by repeat constructor]);
    run; rewrite !action_of_fold, Ha, Hd; decide_tests;
    fold (doc_filename file);
    try (apply kind_equals in Hk);
    destruct (detect_content_type_from_name (doc_filename file)) as [kind ext];
    cbn [fst] in *; rewrite ?Hk; cbn [negb];
    rewrite Hs; cbn [default from_option id]; rewrite Hbig;
    cbv beta iota; tidy_log; reflexivity.
Qed.

Lemma oversized_document_witness :
  ∃ notice,
    Bot.handle_message calm sample_settings (document_message "big.pdf" 3000000000)
      store_two_pdfs []
    = (Raise (too_large sample_settings 3000000000), store_two_pdfs,
       [] ++ bot_dirs_calls sample_settings 7
          ++ [Answer [T notice] None; Mkdir (bot_dir sample_settings 7 "work")]).
Proof.
  destruct (oversized_document calm sample_settings
              (document_message "big.pdf" 3000000000)
              _ 3000000000 store_two_pdfs [] eq_refl eq_refl)
    as (notice & H & _).
  - discriminate.
  - reflexivity.
  - right. right. right. left. split; reflexivity.
  - exists notice. exact H.
Defined.

(** C3 as stated fails: after an oversized document in the zip flow the
    action is still zip_wait_file, it is not reset to none. *)
Lemma oversized_zip_keeps_action :
  let '(r, σ', _) :=
    Bot.handle_message calm sample_settings (document_message "big.iso" 3000000000)
      (store_at "file" "zip_wait_file") [] in
  r = Raise (too_large sample_settings 3000000000)
  ∧ action_of σ' 7 = PStr (lit "zip_wait_file")
  ∧ action_of σ' 7 ≠ PNone.
Proof. vm_compute. repeat split. discriminate. Qed.

(** *** The single-shot flows *)

(** Case analysis on what the outside world and the message decide, from
    the inside out. *)
Ltac split_cases :=
  repeat (match goal with
          | |- context [match ?x with _ => _ end] =>
              lazymatch x with
              | context [match _ with _ => _ end] => fail
              | _ => destruct x eqn:?
              end
          end; cbv beta iota).

Lemma state_of_insert σ u st : state_of (with_USER_STATE <[u := st]> σ) u = st.
Proof. unfold state_of. simpl. by rewrite lookup_insert_eq. Qed.

Lemma Forall_last {A} (P : A → Prop) (l : list A) (x : A) :
  Forall P l → last l = Some x → P x.
Proof.
  intros H Hl. rewrite Forall_forall in H. apply H.
  destruct l as [|y l] using rev_ind; [done|].
  rewrite last_snoc in Hl. injection Hl as ->. set_solver.
Qed.

(** The cases of a membership in a list given by its elements. *)
Ltac in_calls H tac :=
  first [ apply elem_of_nil in H; destruct H
        | apply elem_of_cons in H; destruct H as [H|H]; [tac H | in_calls H tac] ].

Ltac failed_operation c Hop Hf :=
  fun H =>
    subst c; cbn in Hop;
    first
      [ discriminate Hop
      | exfalso; congruence
      | match goal with
        | Hk : fails ?E ?x = Some ?e0 |- _ =>
            rewrite Hk in Hf; injection Hf as <-
        end;
        cbv beta iota;
        split; [reflexivity | split; first [reflexivity | intros _; reflexivity]] ].

Lemma Some_eq {A} (x y : A) : Some x = Some y → x = y.
Proof. by intros [= ->]. Qed.

Lemma Exists_inj (p q : path) : Exists p = Exists q → p = q.
Proof. by intros [= ->]. Qed.

Ltac missing_output Hh :=
  fun H =>
    first
      [ discriminate H
      | apply Exists_inj in H; rewrite H in Hh;
        first
          [ split; reflexivity
          | exfalso;
            match goal with
            | Hk : negb (holds _ _) = false |- _ =>
                rewrite Hh in Hk; cbn in Hk; discriminate Hk
            end ] ].

(** The calls that a run added to the log [l], read off the log. *)
Ltac calls_after t acc :=
  lazymatch t with
  | ?t' ++ [?c] => calls_after t' constr:(c :: acc)
  | _ => acc
  end.

Ltac last_call cs :=
  lazymatch cs with
  | [?c] => c
  | _ :: ?cs' => last_call cs'
  end.

Ltac single_shot_leaf :=
  rewrite ?idle_fold;
  lazymatch goal with
  | |- ∃ calls, ?t = _ ++ calls ∧ _ =>
      let cs := calls_after t constr:(@nil call) in
      exists cs
  end;
  split; [rewrite <- ?app_assoc; first [reflexivity | symmetry; apply app_nil_r] |];
  split; [|split; [|split]];
  [ let c := fresh "c" in let e := fresh "e" in
    let Hin := fresh "Hin" in let Hop := fresh "Hop" in let Hf := fresh "Hf" in
    intros c e Hin Hop Hf; in_calls Hin ltac:(failed_operation c Hop Hf)
  | let p := fresh "p" in let Hin := fresh "Hin" in let Hh := fresh "Hh" in
    intros p Hin Hh; in_calls Hin ltac:(missing_output Hh)
  | let Hall := fresh "Hall" in let Hdel := fresh "Hdel" in
    let c := fresh "c" in let Hl := fresh "Hl" in let Hc := fresh "Hc" in
    let Hok := fresh "Hok" in
    intros Hall Hdel; destruct Hdel as (c & Hl & Hc);
    pose proof (Forall_last _ _ _ Hall Hl) as Hok;
    lazymatch type of Hl with
    | last [] = _ => discriminate Hl
    | last ?cs = _ =>
        let x := last_call cs in
        change (last cs) with (Some x) in Hl;
        apply Some_eq in Hl; subst c;
        first
          [ discriminate Hc
          | vm_compute in Hc; discriminate Hc
          | destruct (exn_str _); vm_compute in Hc; discriminate Hc
          | exfalso; congruence
          | split; [reflexivity | rewrite state_of_insert; reflexivity] ]
    end
  | first [ left; reflexivity | right; rewrite state_of_insert; reflexivity ] ].

(** C2, as the code has it: in each single-shot state, on a message of the
    accepted kind, the handler adds calls to the log and
    (1) when one of the operations it attempted (the download, the file
    operation, the delivery) failed, the store is left as it was, so the
    action stays pending: the handler ends with the error of the failed
    operation, which was its last call; only a failed rename is caught,
    the last call of the handler is then the report of the failure to the
    user, and the handler returns when this report is delivered;
    (2) when the output is missing at the delivery, the handler ends with
    an error and the store is left as it was;
    (3) when none of its calls failed and the last one delivered the result
    (or confirmed the saved proxy), the handler returns and the state of
    the user is menu file (or proxy), action none;
    (4) in every case the store is either left as it was or the state of
    the user is that idle state. *)
Theorem single_shot_outcome (E : env) (settings : Settings) (message : Message)
    (σ : store) (l : list call) (a : string) :
  a ∈ single_shot →
  action_of σ (from_user message) = PStr (lit a) →
  accepted_kind a message →
  let '(r, σ', l') := Bot.handle_message E settings message σ l in
  ∃ calls, l' = l ++ calls
  ∧ (∀ c e, c ∈ calls → is_operation c = true → fails E c = Some e →
       σ' = σ
       ∧ match c with
         | Rename _ _ =>
             let report := Reply (T "Rename failed: " :: exn_str e) None in
             last calls = Some report ∧ (fails E report = None → r = Ok ())
         | _ => r = Raise e ∧ last calls = Some c
         end)
  ∧ (∀ p, Exists p ∈ calls → holds E (Exists p) = false →
       σ' = σ ∧ r = Raise (ValueError [T "Output file not found."]))
  ∧ (Forall (λ c, fails E c = None) calls → delivered calls →
     r = Ok () ∧ state_of σ' (from_user message) = idle (menu_after a))
  ∧ (σ' = σ ∨ state_of σ' (from_user message) = idle (menu_after a)).
Proof.
  intros Hin Ha [Hdoc Hnodoc].
  unfold single_shot in Hin. rewrite !elem_of_cons in Hin.
  destruct Hin as [-> | [-> | [-> | [-> | [-> | Hin]]]]];
    [..|by apply elem_of_nil in Hin].
  - destruct Hdoc as [file Hfile]; [set_solver|].
    run. rewrite !action_of_fold, Ha, Hfile. decide_tests.
    split_cases; single_shot_leaf.
  - destruct Hdoc as [file Hfile]; [set_solver|].
    run. rewrite !action_of_fold, Ha, Hfile. decide_tests.
    split_cases; single_shot_leaf.
  - run. rewrite !action_of_fold, Ha. decide_tests.
    split_cases; single_shot_leaf.
  - run. rewrite !action_of_fold, Ha. decide_tests.
    split_cases; single_shot_leaf.
  - run. rewrite !action_of_fold, Ha, (Hnodoc eq_refl). decide_tests.
    split_cases; single_shot_leaf.
Qed.

Lemma single_shot_outcome_witness :
  let '(r, σ', l') :=
    Bot.handle_message zip_fails sample_settings (document_message "notes.txt" 120)
      (store_at "file" "zip_wait_file") [] in
  ∃ calls, l' = [] ++ calls
  ∧ (∀ c e, c ∈ calls → is_operation c = true → fails zip_fails c = Some e →
       σ' = store_at "file" "zip_wait_file"
       ∧ match c with
         | Rename _ _ =>
             let report := Reply (T "Rename failed: " :: exn_str e) None in
             last calls = Some report ∧ (fails zip_fails report = None → r = Ok ())
         | _ => r = Raise e ∧ last calls = Some c
         end)
  ∧ (∀ p, Exists p ∈ calls → holds zip_fails (Exists p) = false →
       σ' = store_at "file" "zip_wait_file"
       ∧ r = Raise (ValueError [T "Output file not found."]))
  ∧ (Forall (λ c, fails zip_fails c = None) calls → delivered calls →
     r = Ok () ∧ state_of σ' 7 = idle "file")
  ∧ (σ' = store_at "file" "zip_wait_file" ∨ state_of σ' 7 = idle "file").
Proof.
  refine (single_shot_outcome zip_fails sample_settings (document_message "notes.txt" 120)
            (store_at "file" "zip_wait_file") [] "zip_wait_file" _ eq_refl _).
  - unfold single_shot. set_solver.
  - split; [intros _; by eexists | discriminate].
Defined.

Example zip_flow_runs :
  Bot.handle_message calm sample_settings (document_message "notes.txt" 120)
    (store_at "file" "zip_wait_file") []
  = (Ok (), with_USER_STATE <[7 := idle "file"]> (store_at "file" "zip_wait_file"),
     bot_dirs_calls sample_settings 7
     ++ [Answer [T "Downloading file…"] None;
         Mkdir (Path (lit "storage/7/work"));
         BotDownload (lit "id1") (Path (lit "storage/7/work/notes.txt"));
         Answer [T "Zipping…"] None;
         ZipPaths [Path (lit "storage/7/work/notes.txt")]
                  (Path (lit "storage/7/output/notes.zip"));
         Exists (Path (lit "storage/7/output/notes.zip"));
         SendDocument 7 (Path (lit "storage/7/output/notes.zip"))
                      [Cut 900 [T "Zipped ✅"]]]).
Proof. vm_compute. reflexivity. Qed.

(** C2 as stated fails: when zipping fails, the zip was attempted and the
    action is still zip_wait_file. *)
Lemma failed_zip_keeps_action :
  let '(r, σ', l') :=
    Bot.handle_message zip_fails sample_settings (document_message "notes.txt" 120)
      (store_at "file" "zip_wait_file") [] in
  r = Raise (OtherError [T "OSError"])
  ∧ last l' = Some (ZipPaths [Path (lit "storage/7/work/notes.txt")]
                             (Path (lit "storage/7/output/notes.zip")))
  ∧ action_of σ' 7 = PStr (lit "zip_wait_file")
  ∧ action_of σ' 7 ≠ PNone.
Proof. vm_compute. repeat split. discriminate. Qed.

(** *** The buffers change only on their own events *)

Lemma startswith_app p s : startswith p s = true → ∃ r, s = p ++ r.
Proof.
  revert s. induction p as [|a p IH]; intros s; simpl; [by eexists|].
  destruct s as [|c s]; [done|].
  intros [Hc Hp]%andb_true_iff. apply N.eqb_eq in Hc as ->.
  destruct (IH _ Hp) as [r ->]. by exists r.
Qed.

Lemma equals_true x k : equals x k = true → x = lit k.
Proof. unfold equals. apply bool_decide_eq_true_1. Qed.

Lemma action_is_true x k : action_is x k = true → x = PStr (lit k).
Proof. unfold action_is. apply bool_decide_eq_true_1. Qed.

Lemma split1_prefix (p r : str) :
  forallb (λ c, negb (c =? 58)%N) p = true →
  split1 58 (p ++ 58%N :: r) = Some (p, r).
Proof.
  induction p as [|c p IH]; simpl; [done|].
  intros [Hc Hp]%andb_true_iff. apply negb_true_iff in Hc. rewrite Hc.
  by rewrite IH.
Qed.

Ltac bucket_simpl :=
  cbn [fst snd MERGE_BUCKET IMG_BUCKET USER_STATE USER_PROXY
       with_USER_STATE with_USER_PROXY with_MERGE_BUCKET with_IMG_BUCKET].

(** The data of a button press that passed the filter [pc] is [p], a colon,
    and the command. *)
Ltac on_prefix H pc p :=
  let r := fresh "cmd" in
  apply startswith_app in H as [r H]; rewrite H;
  change (lit pc ++ r) with (lit p ++ 58%N :: r);
  rewrite split1_prefix by reflexivity; cbv beta iota.

(** One side of a leaf: the bucket is the same, or it was changed at the key
    of the user by the event at hand. *)
Ltac bucket_side :=
  let Hv := fresh "Hv" in
  bucket_simpl; intros Hv;
  first
    [ by destruct Hv
    | repeat match goal with
             | H : equals _ _ = true |- _ => apply equals_true in H; subst
             end;
      match goal with
      | |- ?v = ?u ∧ _ =>
          destruct (decide (v = u)) as [->|];
          [ split; [reflexivity|]
          | exfalso; apply Hv;
            first [by rewrite lookup_insert_ne | by rewrite lookup_delete_ne] ]
      end;
      first
        [ left; split;
          [ first [left; reflexivity | right; reflexivity]
          | by rewrite lookup_insert_eq ]
        | right; split;
          [ first [left; reflexivity | right; reflexivity]
          | by rewrite lookup_delete_eq ]
        | split; [by apply action_is_true|];
          eexists; split; [first [eassumption | reflexivity]|]; split;
          [ unfold doc_kind;
            match goal with
            | H : detect_content_type_from_name _ = _ |- _ => rewrite H
            end;
            match goal with
            | H : negb (equals _ _) = false |- _ =>
                by apply negb_false_iff, equals_true in H
            end
          | by rewrite lookup_insert_eq ] ] ].

Ltac frame_leaf := split; intros ?; bucket_side.

Lemma callbacks_frame E settings q σ l :
  let σ' := (Bot.dispatch E settings (Bot.OnCallback q) σ l).1.2 in
  (∀ v, MERGE_BUCKET σ' !! v ≠ MERGE_BUCKET σ !! v →
        merge_change settings (Bot.OnCallback q) σ σ' v)
  ∧ (∀ v, IMG_BUCKET σ' !! v ≠ IMG_BUCKET σ !! v →
          img_change settings (Bot.OnCallback q) σ σ' v).
Proof.
  intros σ'. subst σ'. unfold merge_change, img_change.
  run.
  destruct (startswith (lit "menu:") (data q)) eqn:H1.
  { on_prefix H1 "menu:"%string "menu"%string. split_cases; frame_leaf. }
  destruct (startswith (lit "proxy:") (data q)) eqn:H2.
  { on_prefix H2 "proxy:"%string "proxy"%string. split_cases; frame_leaf. }
  destruct (startswith (lit "file:") (data q)) eqn:H3.
  { on_prefix H3 "file:"%string "file"%string. split_cases; frame_leaf. }
  destruct (startswith (lit "dl:") (data q)) eqn:H4.
  { on_prefix H4 "dl:"%string "dl"%string. split_cases; frame_leaf. }
  destruct (startswith (lit "merge:") (data q)) eqn:H5.
  { on_prefix H5 "merge:"%string "merge"%string. split_cases; frame_leaf. }
  destruct (startswith (lit "imgpdf:") (data q)) eqn:H6.
  { on_prefix H6 "imgpdf:"%string "imgpdf"%string. split_cases; frame_leaf. }
  frame_leaf.
Qed.

(** The same run, kept as an equation; the case analysis follows the path
    of the execution: the scrutinee that blocks the head of the run is
    split first. *)
Ltac run_in H :=
  cbv beta iota zeta delta
    [Bot.handle_message Bot.handle_document Bot.handle_newname Bot.handle_link
     Bot.download_telegram_file Bot.send_file Bot.user_proxy
     Bot.start Bot.menu_nav Bot.proxy_actions Bot.file_actions Bot.dl_actions
     Bot.merge_controls Bot.imgpdf_controls Bot.dispatch
     get_state set_state output_dir work_dir downloads_dir user_dir ensure_dir
     do_zip do_unzip do_rename do_text_to_pdf do_images_to_pdf do_merge_pdfs
     callback_cmd
     mbind mret M_bind M_ret say perform ask fetch modify get_store raise
     try_except try_finally] in H.

Ltac find_head t :=
  lazymatch t with
  | match ?x with _ => _ end =>
      match x with
      | _ => find_head x
      | _ => x
      end
  | ?f _ => find_head f
  end.

Ltac path_cases H :=
  repeat (match type of H with
          | ?X = _ => let s := find_head X in destruct s eqn:?
          end; cbv beta iota in H).

Lemma messages_frame E settings message σ l :
  let σ' := (Bot.dispatch E settings (Bot.OnMessage message) σ l).1.2 in
  (∀ v, MERGE_BUCKET σ' !! v ≠ MERGE_BUCKET σ !! v →
        merge_change settings (Bot.OnMessage message) σ σ' v)
  ∧ (∀ v, IMG_BUCKET σ' !! v ≠ IMG_BUCKET σ !! v →
          img_change settings (Bot.OnMessage message) σ σ' v).
Proof.
  intros σ'. subst σ'.
  unfold merge_change, img_change, bot_local_path, bot_dir, bot_user_dir.
  destruct (Bot.dispatch _ _ _ _ _) as [[r σ'] l'] eqn:H. cbn [fst snd].
  run_in H.
  destruct (document message) as [file|] eqn:Hdoc.
  - fold (doc_filename file) in H.
    path_cases H; injection H as <- <- <-; frame_leaf.
  - path_cases H; injection H as <- <- <-; frame_leaf.
Qed.

Lemma start_frame E settings message σ l :
  let σ' := (Bot.dispatch E settings (Bot.OnStart message) σ l).1.2 in
  MERGE_BUCKET σ' = MERGE_BUCKET σ ∧ IMG_BUCKET σ' = IMG_BUCKET σ.
Proof. intros σ'. subst σ'. run. split_cases; split; reflexivity. Qed.

Lemma menu_nav_frame E settings q σ l :
  startswith (lit "menu:") (data q) = true →
  let σ' := (Bot.dispatch E settings (Bot.OnCallback q) σ l).1.2 in
  MERGE_BUCKET σ' = MERGE_BUCKET σ ∧ IMG_BUCKET σ' = IMG_BUCKET σ.
Proof.
  intros H σ'. subst σ'. run. rewrite H.
  on_prefix H "menu:"%string "menu"%string. split_cases; split; reflexivity.
Qed.

(** C10: a button press of the menu navigation leaves the merge and image
    buffers of every user as they were; and whatever the update, the merge
    (image) buffer of a user changes only when this user selects the
    collection again or clears it (the buffer becomes empty), cancels or
    completes it (the buffer is removed), or sends a PDF (an image) while
    collecting (the local path of the document is appended). *)
Theorem buffers_frame (E : env) (settings : Settings) (u : Bot.update)
    (σ : store) (l : list call) :
  let σ' := (Bot.dispatch E settings u σ l).1.2 in
  (∀ q, u = Bot.OnCallback q → startswith (lit "menu:") (data q) = true →
        MERGE_BUCKET σ' = MERGE_BUCKET σ ∧ IMG_BUCKET σ' = IMG_BUCKET σ)
  ∧ (∀ v, MERGE_BUCKET σ' !! v ≠ MERGE_BUCKET σ !! v →
          merge_change settings u σ σ' v)
  ∧ (∀ v, IMG_BUCKET σ' !! v ≠ IMG_BUCKET σ !! v →
          img_change settings u σ σ' v).
Proof.
  intros σ'. split.
  - intros q -> Hq. by apply menu_nav_frame.
  - destruct u as [message | message | q].
    + destruct (start_frame E settings message σ l) as [Hm Hi].
      fold σ' in Hm, Hi. rewrite Hm, Hi. by split; intros v Hv.
    + apply messages_frame.
    + apply callbacks_frame.
Qed.

Lemma buffers_frame_witness :
  let σ' := (Bot.dispatch calm sample_settings (Bot.OnCallback (press "menu:dl"))
               store_two_pdfs []).1.2 in
  MERGE_BUCKET σ' = MERGE_BUCKET store_two_pdfs
  ∧ IMG_BUCKET σ' = IMG_BUCKET store_two_pdfs.
Proof.
  exact (proj1 (buffers_frame calm sample_settings (Bot.OnCallback (press "menu:dl"))
                  store_two_pdfs []) _ eq_refl eq_refl).
Defined.

Example collecting_appends :
  let σ' := (Bot.dispatch calm sample_settings
               (Bot.OnMessage (document_message "c.pdf" 10)) store_two_pdfs []).1.2 in
  MERGE_BUCKET σ' !! 7
  = Some [Path (lit "storage/7/work/a.pdf"); Path (lit "storage/7/work/b.pdf");
          Path (lit "storage/7/work/c.pdf")].
Proof. vm_compute. reflexivity. Qed.

(** *** Sample runs *)

Example rename_two_phases :
  let σ1 := (Bot.handle_message calm sample_settings
               (document_message "Report 1.PDF" 10)
               (store_at "file" "rename_wait_file") []).1.2 in
  state_of σ1 7 !! "rename_path" = Some (PStr (lit "storage/7/work/Report 1.PDF"))
  ∧ action_of σ1 7 = PStr (lit "rename_wait_newname")
  ∧ Bot.handle_message calm sample_settings (text_message " final: v2.pdf ") σ1 []
    = (Ok (), with_USER_STATE <[7 := idle "file"]> σ1,
       [Rename (Path (lit "storage/7/work/Report 1.PDF"))
               (Path (lit "storage/7/work/final_ v2.pdf"));
        Exists (Path (lit "storage/7/work/final_ v2.pdf"));
        SendDocument 7 (Path (lit "storage/7/work/final_ v2.pdf"))
                     [Cut 900 [T "Renamed ✅"]]]).
Proof. vm_compute. repeat split. Qed.

Example link_auto_detected :
  Bot.handle_message calm sample_settings (text_message "https://youtu.be/abc123")
    (store_at "dl" "dl_wait_link_auto") []
  = (Ok (), with_USER_STATE <[7 := idle "dl"]> (store_at "dl" "dl_wait_link_auto"),
     [Mkdir (Path (lit "storage/7")); Mkdir (Path (lit "storage/7/downloads"));
      Mkdir (Path (lit "storage/7")); Mkdir (Path (lit "storage/7/output"));
      Answer [T "Working on it…"] None;
      DownloadYoutube (lit "https://youtu.be/abc123")
                      (Path (lit "storage/7/downloads")) None;
      IsDir [lit "downloaded"];
      Answer [T "Playlist detected → zipping…"] None;
      ZipPaths [[lit "downloaded"]] (Path (lit "storage/7/output/youtube_playlist.zip"));
      Exists (Path (lit "storage/7/output/youtube_playlist.zip"));
      SendDocument 7 (Path (lit "storage/7/output/youtube_playlist.zip"))
                   [Cut 900 [T "YouTube playlist ZIP ✅"]]]).
Proof. vm_compute. reflexivity. Qed.

Example link_not_detected :
  Bot.handle_message calm sample_settings (text_message "https://example.com/file")
    (store_at "dl" "dl_wait_link_auto") []
  = (Ok (), with_USER_STATE <[7 := idle "dl"]> (store_at "dl" "dl_wait_link_auto"),
     [Mkdir (Path (lit "storage/7")); Mkdir (Path (lit "storage/7/downloads"));
      Mkdir (Path (lit "storage/7")); Mkdir (Path (lit "storage/7/output"));
      Answer [T "Working on it…"] None;
      Reply [T "I couldn’t detect that link type. Use the Downloader menu to choose one."]
            None]).
Proof. vm_compute. reflexivity. Qed.

(** ** Further properties *)

(** ** More on safe_filename *)

Lemma strip_head s : match strip s with [] => True | c :: _ => isspace c = false end.
Proof. apply rstrip_head, lstrip_head. Qed.

Lemma safe_filename_body_nil s : safe_filename_body s = [] ↔ strip s = [].
Proof.
  unfold safe_filename_body. pose proof (strip_head s) as H.
  destruct (strip s) as [|c t]; [done|]. split; [|done].
  simpl. destruct (N.eqb_spec c 10) as [->|_]; [discriminate H|].
  destruct (illegal c); simpl; [done|]. by rewrite H.
Qed.

(** X1: safe_filename returns the empty name exactly for a blank input
    (empty or white space only); every other input gives a non-empty
    name. *)
Theorem safe_filename_blank (s : str) : safe_filename s = [] ↔ strip s = [].
Proof.
  rewrite <- safe_filename_body_nil. unfold safe_filename.
  destruct (N.ltb_spec 180 (N.of_nat (length (safe_filename_body s)))); [|done].
  destruct (safe_filename_body s); simpl in *; [lia|]. done.
Qed.

(** X2: the names that safe_filename returns unchanged are exactly the tidy
    names (no illegal character, white space only as single plain spaces,
    none at the start) of at most 180 characters that do not end with white
    space. *)
Theorem safe_filename_fixed (s : str) :
  safe_filename s = s ↔ tidy true s ∧ (length s ≤ 180)%nat ∧ rstrip s = s.
Proof.
  split.
  - intros H. assert (Ht : tidy true s) by (rewrite <- H; apply safe_filename_tidy).
    assert (Hl : (length s ≤ 180)%nat) by (rewrite <- H; apply safe_filename_length).
    split; [done|]. split; [done|].
    rewrite <- (safe_filename_on_tidy s Ht Hl). done.
  - intros (Ht & Hl & Hr). by rewrite safe_filename_on_tidy.
Qed.

(** ** Sanitized names as path components *)

Lemma split_no_sep sep (s : str) : Forall (λ c, c ≠ sep) s → split sep s = [s].
Proof.
  induction 1 as [|c t Hc _ IH]; simpl; [done|]. rewrite IH.
  by destruct (N.eqb_spec c sep).
Qed.

Lemma legal_no_slash s : Forall (λ c, illegal c = false) s → Forall (λ c, c ≠ 47%N) s.
Proof. intros H. eapply Forall_impl; [exact H|]. by intros c Hc ->. Qed.

Lemma Path_no_slash (s : str) :
  Forall (λ c, c ≠ 47%N) s →
  Path s = if bool_decide (s = [] ∨ s = [46%N]) then [] else [s].
Proof.
  intros Hs. unfold Path. rewrite (split_no_sep _ _ Hs).
  assert (Hf : filter (λ w : str, w ≠ [] ∧ w ≠ [46%N]) [s]
               = if bool_decide (s = [] ∨ s = [46%N]) then [] else [s]).
  { rewrite filter_cons, filter_nil. destruct (decide (s ≠ [] ∧ s ≠ [46%N])) as [[H1 H2]|Hn].
    - rewrite bool_decide_eq_false_2; [done|]. by intros [?|?].
    - rewrite bool_decide_eq_true_2; [done|].
      destruct (decide (s = [])); [by left|]. destruct (decide (s = [46%N])); [by right|].
      by destruct Hn. }
  destruct Hs as [|c t Hc Ht]; [done|].
  destruct (N.eqb_spec c 47); [done|].
  assert (∀ X Y Z W : path, match c :: t with
     | 47%N :: 47%N :: 47%N :: _ => X | 47%N :: 47%N :: _ => Y | 47%N :: _ => Z | _ => W end = W) as ->; [|done].
  intros. destruct c as [|p]; [done|]. do 6 (destruct p as [p|p|]; try done).
Qed.

(** X3: joining a directory with a sanitized name never goes deeper than one
    level and never leaves the directory through a separator: the result is
    the directory itself when the name is empty or a dot, and otherwise the
    directory followed by the name as one component. *)
Theorem path_div_safe_filename (p : path) (x : str) :
  path_div p (safe_filename x)
  = if bool_decide (safe_filename x = [] ∨ safe_filename x = [46%N]) then p
    else p ++ [safe_filename x].
Proof.
  pose proof (tidy_legal _ _ (safe_filename_tidy x)) as Hl.
  unfold path_div. rewrite (Path_no_slash _ (legal_no_slash _ Hl)).
  case_bool_decide; simpl; [by rewrite app_nil_r|].
  unfold is_root. destruct Hl as [|c t Hc _]; [done|]. simpl.
  destruct (N.eqb_spec c 47) as [->|]; [done|done].
Qed.

(** ** The storage areas of the users *)

Lemma lit_cons a s : lit (String a s) = N_of_ascii a :: lit s.
Proof. reflexivity. Qed.

Lemma lit_inj (a b : string) : lit a = lit b → a = b.
Proof.
  revert b. induction a as [|x a IH]; intros [|y b]; try done.
  rewrite !lit_cons. intros [= Hx Hl].
  f_equal; [|by apply IH].
  rewrite <- (ascii_N_embedding x), <- (ascii_N_embedding y). by rewrite Hx.
Qed.

Lemma str_of_Z_inj (u v : Z) : str_of_Z u = str_of_Z v → u = v.
Proof.
  intros H%lit_inj. apply to_int_inj.
  assert (Hnn : ∀ z, Z.to_int z ≠ Decimal.Pos Decimal.Nil ∧ Z.to_int z ≠ Decimal.Neg Decimal.Nil).
  { intros [|p|p]; simpl; split; try discriminate;
      intros [= Hp]; by apply Unsigned.to_uint_nonnil in Hp. }
  destruct (Hnn u) as [Hu1 Hu2]. destruct (Hnn v) as [Hv1 Hv2].
  pose proof (NilZero.isi _ Hu1 Hu2) as Eu. pose proof (NilZero.isi _ Hv1 Hv2) as Ev.
  rewrite H in Eu. rewrite Eu in Ev. by injection Ev.
Qed.

Lemma lit_uint_decimal d : Forall decimal_char (lit (NilEmpty.string_of_uint d)).
Proof.
  induction d; simpl NilEmpty.string_of_uint; rewrite ?lit_cons;
    [constructor | constructor; [right; vm_compute; split; discriminate | done] ..].
Qed.

Lemma lit_nzuint_decimal d :
  lit (NilZero.string_of_uint d) ≠ [] ∧ Forall decimal_char (lit (NilZero.string_of_uint d)).
Proof.
  destruct d;
    [ split; [discriminate | constructor; [right; vm_compute; split; discriminate | constructor]]
    | (split; [cbn [NilZero.string_of_uint NilEmpty.string_of_uint]; rewrite lit_cons;
               discriminate
              | apply lit_uint_decimal]) .. ].
Qed.

Lemma str_of_Z_decimal n : str_of_Z n ≠ [] ∧ Forall decimal_char (str_of_Z n).
Proof.
  unfold str_of_Z, NilZero.string_of_int.
  destruct (Z.to_int n) as [d|d]; [apply lit_nzuint_decimal|].
  rewrite lit_cons. split; [done|]. constructor; [by left|].
  apply lit_nzuint_decimal.
Qed.

Lemma Path_str_of_Z n : Path (str_of_Z n) = [str_of_Z n].
Proof.
  destruct (str_of_Z_decimal n) as [Hne Hd].
  rewrite Path_no_slash.
  - rewrite bool_decide_eq_false_2; [done|]. intros [?|E]; [done|].
    rewrite E in Hd. apply Forall_cons in Hd as [[H|H] _]; [done | lia].
  - eapply Forall_impl; [exact Hd|]. intros c [->| ?] ?; [done | lia].
Qed.

Lemma path_div_str_of_Z (p : path) n : path_div p (str_of_Z n) = p ++ [str_of_Z n].
Proof.
  unfold path_div. rewrite Path_str_of_Z. unfold is_absolute, is_root.
  destruct (str_of_Z_decimal n) as [Hne Hd].
  destruct Hd as [|c t Hc _]; [done|]. simpl.
  destruct (N.eqb_spec c 47) as [->|]; [|done].
  destruct Hc as [?|?]; [done | lia].
Qed.

Lemma relative_to_app_both (a b c : path) :
  relative_to (a ++ b) (a ++ c) = relative_to b c.
Proof. induction a as [|w a IH]; simpl; [done|]. by rewrite bool_decide_eq_true_2. Qed.

Lemma path_div_area (p : path) sub : sub ∈ areas → path_div p (lit sub) = p ++ [lit sub].
Proof.
  unfold areas. rewrite !elem_of_cons.
  intros [-> | [-> | [-> | H]]]; [reflexivity..|by apply elem_of_nil in H].
Qed.

(** X4: the storage areas of two different users never meet: their user
    directories differ, and the work, downloads and output directories of
    one user are not below the directory of the other, while they are direct
    children of the user's own directory (bot.py and app.py). *)
Theorem user_areas_disjoint (settings : Settings) (BASE : path) (u v : Z) (sub : string) :
  u ≠ v → sub ∈ areas →
  bot_user_dir settings u ≠ bot_user_dir settings v
  ∧ relative_to (bot_dir settings u sub) (bot_user_dir settings v) = None
  ∧ relative_to (bot_dir settings u sub) (bot_user_dir settings u) = Some [lit sub]
  ∧ relative_to (app_dir BASE u sub) (path_div BASE (str_of_Z v)) = None
  ∧ relative_to (app_dir BASE u sub) (path_div BASE (str_of_Z u)) = Some [lit sub].
Proof.
  intros Huv Hsub.
  assert (Hs : str_of_Z v ≠ str_of_Z u) by (intros H%str_of_Z_inj; done).
  unfold bot_dir, app_dir, bot_user_dir.
  rewrite !path_div_area by done. rewrite !path_div_str_of_Z.
  split; [|split; [|split; [|split]]].
  - intros H%app_inv_head. by injection H as H%str_of_Z_inj.
  - rewrite <- app_assoc, relative_to_app_both. simpl.
    by rewrite bool_decide_eq_false_2.
  - apply relative_to_app.
  - rewrite <- app_assoc, relative_to_app_both. simpl.
    by rewrite bool_decide_eq_false_2.
  - apply relative_to_app.
Qed.

Lemma user_areas_disjoint_witness :
  bot_user_dir sample_settings 7 ≠ bot_user_dir sample_settings 8
  ∧ relative_to (bot_dir sample_settings 7 "work") (bot_user_dir sample_settings 8) = None.
Proof.
  destruct (user_areas_disjoint sample_settings [] 7 8 "work") as (H1 & H2 & _).
  - discriminate.
  - unfold areas. set_solver.
  - by split.
Defined.

(** ** features_file.py: do_rename *)

Lemma with_name_Some (p : path) (n : str) (t : path) :
  with_name p n = Some t →
  Forall (λ c, c ≠ 47%N) n →
  t = removelast p ++ [n] ∧ path_parent t = path_parent p ∧ path_name t = n.
Proof.
  unfold with_name. intros H Hn.
  destruct (bool_decide (n = [])) eqn:E1; [done|]. apply bool_decide_eq_false_1 in E1.
  destruct (_ || _) eqn:E2 in H; [done|].
  destruct (path_tail p) as [|w0 ws0] eqn:Et; [done|]. injection H as <-.
  split; [done|].
  assert (Hroot : is_root n = false).
  { unfold is_root. destruct Hn as [|c k Hc _]; [done|]. simpl.
    by destruct (N.eqb_spec c 47). }
  unfold path_parent, path_name. rewrite Et.
  destruct p as [|w ws]; [done|]. unfold path_tail in *.
  destruct (is_root w) eqn:Ew.
  - subst ws. change (removelast (w :: w0 :: ws0)) with (w :: removelast (w0 :: ws0)).
    cbn [app]. rewrite Ew.
    destruct (removelast (w0 :: ws0) ++ [n]) as [|a b] eqn:Er.
    { by destruct (removelast (w0 :: ws0)). }
    rewrite <- Er. split.
    + change (w :: removelast (w0 :: ws0) ++ [n]) with ((w :: removelast (w0 :: ws0)) ++ [n]).
      by rewrite removelast_last.
    + apply last_last.
  - destruct ws as [|w1 ws].
    + cbn [removelast app]. rewrite Hroot. done.
    + change (removelast (w :: w1 :: ws)) with (w :: removelast (w1 :: ws)).
      cbn [app]. rewrite Ew.
      split.
      * change (w :: removelast (w1 :: ws) ++ [n]) with ((w :: removelast (w1 :: ws)) ++ [n]).
        by rewrite removelast_last.
      * change (w :: removelast (w1 :: ws) ++ [n]) with ((w :: removelast (w1 :: ws)) ++ [n]).
        apply last_last.
Qed.

(** X5: do_rename keeps the file in its directory: a blank new name is
    refused before the file system is touched; and when do_rename returns,
    it has made one rename call to a target that has the parent of the
    source and whose name is the sanitized new name. *)
Theorem do_rename_target (E : env) (p : path) (new_name : str) (σ : store)
    (l : list call) :
  (strip new_name = [] →
   do_rename E p new_name σ l = (Raise (ValueError [T "New filename is empty."]), σ, l))
  ∧ ∀ t σ' l', do_rename E p new_name σ l = (Ok t, σ', l') →
      σ' = σ ∧ l' = l ++ [Rename p t]
      ∧ path_parent t = path_parent p
      ∧ path_name t = safe_filename new_name.
Proof.
  split.
  - intros Hb%safe_filename_blank. unfold do_rename. rewrite Hb. reflexivity.
  - intros t σ' l'. unfold do_rename.
    case_bool_decide; [done|].
    destruct (with_name p (safe_filename new_name)) as [t0|] eqn:Hw; [|done].
    pose proof (legal_no_slash _ (tidy_legal _ _ (safe_filename_tidy new_name))) as Hs.
    destruct (with_name_Some _ _ _ Hw Hs) as (_ & Hp & Hn).
    cbv [mbind mret M_bind M_ret perform].
    destruct (fails E (Rename p t0)); intros [= <- <- <-]; done.
Qed.

(** ** The lines of text_to_pdf *)

Lemma wrap_loop_spec (max_chars : nat) (fuel : nat) (s : str) :
  (0 < max_chars)%nat → (length s ≤ fuel)%nat →
  ∃ chunks, wrap_loop fuel max_chars s = Some chunks
    ∧ concat chunks = s
    ∧ Forall (λ ch, (0 < length ch ≤ max_chars)%nat) chunks.
Proof.
  intros Hm. revert s. induction fuel as [|k IH]; intros s Hl.
  - destruct s; [|simpl in Hl; lia]. by exists [].
  - destruct s as [|c t]; [by exists []|].
    destruct (IH (drop max_chars (c :: t))) as (chunks & E & Hc & Hf).
    { rewrite length_drop. simpl in *. lia. }
    exists (take max_chars (c :: t) :: chunks).
    cbn [wrap_loop]. rewrite E. split; [done|]. split.
    + cbn [concat]. rewrite Hc. apply take_drop.
    + constructor; [|done]. rewrite length_take. simpl. lia.
Qed.

(** X6: for a positive width, wrap_line returns a non-empty list of pieces of
    at most that many characters whose concatenation is the line (without
    trailing line feeds); a line longer than the width gives non-empty
    pieces only.  With width zero the loop does not end on such a line. *)
Theorem wrap_line_spec (s : str) (max_chars : nat) :
  ((0 < max_chars)%nat →
   ∃ chunks, wrap_line s max_chars = Some chunks
     ∧ chunks ≠ []
     ∧ concat chunks = rstrip_char 10 s
     ∧ Forall (λ ch, (length ch ≤ max_chars)%nat) chunks
     ∧ ((max_chars < length (rstrip_char 10 s))%nat →
        Forall (λ ch, ch ≠ []) chunks))
  ∧ (max_chars = 0%nat → rstrip_char 10 s ≠ [] → wrap_line s max_chars = None).
Proof.
  split.
  - intros Hm. unfold wrap_line. case_bool_decide as Hl.
    + exists [rstrip_char 10 s]. split; [done|]. split; [done|].
      split; [by cbn [concat]; rewrite app_nil_r|]. split; [by repeat constructor|]. lia.
    + destruct (wrap_loop_spec max_chars (length (rstrip_char 10 s)) (rstrip_char 10 s))
        as (chunks & E & Hc & Hf); [done..|].
      exists chunks. split; [done|]. split.
      { intros ->. simpl in Hc. rewrite <- Hc in Hl. simpl in Hl. lia. }
      split; [done|]. split.
      * eapply Forall_impl; [exact Hf|]. simpl. lia.
      * intros _. eapply Forall_impl; [exact Hf|]. simpl. intros ch [H _] ->. simpl in H. lia.
  - intros -> Hne. unfold wrap_line.
    rewrite bool_decide_eq_false_2.
    2:{ destruct (rstrip_char 10 s); [done|]. simpl. lia. }
    generalize (length (rstrip_char 10 s)).
    destruct (rstrip_char 10 s) as [|c t]; [done|].
    intros n. induction n as [|n IH]; [done|].
    cbn [wrap_loop]. rewrite drop_0. by rewrite IH.
Qed.

Lemma range_by_step (n m : nat) :
  (0 < m)%nat → (0 < n)%nat →
  ((n + m - 1) / m = S ((n - m + m - 1) / m))%nat.
Proof.
  intros Hm Hn. destruct (decide (n ≤ m)%nat) as [Hle|Hgt].
  - replace (n - m)%nat with 0%nat by lia.
    rewrite (Nat.div_small (0 + m - 1)) by lia.
    replace (n + m - 1)%nat with ((n - 1) + 1 * m)%nat by lia.
    rewrite Nat.div_add by lia. rewrite Nat.div_small by lia. done.
  - replace (n + m - 1)%nat with ((n - m + m - 1) + 1 * m)%nat by lia.
    rewrite Nat.div_add by lia. lia.
Qed.

Lemma wrap_loop_range (max_chars : nat) (fuel : nat) (s : str) :
  (0 < max_chars)%nat → (length s ≤ fuel)%nat →
  wrap_loop fuel max_chars s
  = Some ((λ i, take max_chars (drop i s)) <$> range_by (length s) max_chars).
Proof.
  intros Hm. revert s. induction fuel as [|k IH]; intros s Hl.
  - destruct s; [|simpl in Hl; lia]. unfold range_by. simpl.
    by rewrite Nat.div_small by lia.
  - destruct s as [|c t].
    { unfold range_by. simpl. by rewrite Nat.div_small by lia. }
    cbn [wrap_loop]. rewrite IH by (rewrite length_drop; simpl in *; lia).
    f_equal. unfold range_by.
    rewrite (range_by_step (length (c :: t)) max_chars) by (simpl; lia).
    rewrite length_drop. cbn [seq fmap list_fmap]. rewrite Nat.mul_0_l, drop_0.
    f_equal. rewrite <- seq_shift, <- !list_fmap_compose.
    apply list_fmap_ext. intros ? i ?. simpl. rewrite drop_drop.
    reflexivity.
Qed.

(** X7: for a positive width the two variants of the line wrapper, the loop
    of utils.py and the slices over a range of app.py, give the same
    pieces. *)
Theorem app_wrap_agrees (s : str) (max_chars : nat) :
  (0 < max_chars)%nat → app_wrap s max_chars = wrap_line s max_chars.
Proof.
  intros Hm. unfold app_wrap, wrap_line. case_bool_decide; [done|].
  rewrite wrap_loop_range by done. by destruct max_chars; [lia|].
Qed.

Lemma app_wrap_agrees_witness :
  app_wrap (replicate 200 97%N) 95 = wrap_line (replicate 200 97%N) 95
  ∧ wrap_line (replicate 200 97%N) 95
    = Some [replicate 95 97%N; replicate 95 97%N; replicate 10 97%N].
Proof.
  split; [apply (app_wrap_agrees (replicate 200 97%N) 95); lia | by vm_compute].
Defined.

Lemma splitlines_from_spec (b : bool) (cur s : str) :
  Forall (λ c, linebreak c = false) cur →
  concat (splitlines_from b cur s) = cur ++ filter (λ c, linebreak c = false) s
  ∧ Forall (Forall (λ c, linebreak c = false)) (splitlines_from b cur s).
Proof.
  revert b cur. induction s as [|c t IH]; intros b cur Hcur.
  - destruct cur; simpl; [done|]. rewrite !app_nil_r. split; [done|]. by constructor.
  - cbn [splitlines_from]. destruct (b && (c =? 10)%N) eqn:Eb.
    + apply andb_true_iff in Eb as [_ Ec]. apply N.eqb_eq in Ec as ->.
      rewrite filter_cons_False by done. by apply IH.
    + destruct (linebreak c) eqn:El.
      * rewrite filter_cons_False by (by rewrite El).
        destruct (IH (c =? 13)%N [] (Forall_nil_2 _)) as [H1 H2].
        cbn [concat]. rewrite H1. split; [done|]. by constructor.
      * rewrite filter_cons_True by done.
        destruct (IH false (cur ++ [c])) as [H1 H2].
        { apply Forall_app. split; [done|]. by repeat constructor. }
        rewrite H1, <- app_assoc. done.
Qed.

Lemma rstrip_char_absent (ch : N) (s : str) :
  ch ∉ s → rstrip_char ch s = s.
Proof.
  induction s as [|c t IH]; [done|]. intros Hn.
  apply not_elem_of_cons in Hn as [Hc Ht]. cbn [rstrip_char]. rewrite (IH Ht).
  destruct t; [|done]. by rewrite (proj2 (N.eqb_neq c ch)) by done.
Qed.

Lemma wrap_lines_spec (raw : list str) :
  Forall (Forall (λ c, linebreak c = false)) raw →
  ∃ wrapped, mapM (λ raw_line, wrap_line raw_line 95) raw = Some wrapped
    ∧ concat (concat wrapped) = concat raw
    ∧ Forall (λ ln, (length ln ≤ 95)%nat) (concat wrapped)
    ∧ (raw ≠ [] → concat wrapped ≠ []).
Proof.
  induction 1 as [|ln raw Hln _ IH].
  - exists []. by repeat split.
  - destruct IH as (wrapped & E & Hc & Hf & _).
    destruct (wrap_line_spec ln 95) as [Hw _].
    destruct Hw as (chunks & Ew & Hne & Hcc & Hfc & _); [lia|].
    rewrite rstrip_char_absent in Hcc.
    2:{ intros Hin. by apply (proj1 (Forall_forall _ _) Hln) in Hin. }
    exists (chunks :: wrapped). cbn [mapM]. rewrite Ew, E. split; [done|].
    cbn [concat]. rewrite concat_app, Hcc, Hc. split; [done|].
    split; [by apply Forall_app|]. intros _. by destruct chunks.
Qed.

(** X8: text_to_pdf always has lines to draw: at least one, none longer
    than 95 characters or containing a line break, and read one after the
    other they are the text with its line-break characters left out and
    nothing else changed. *)
Theorem drawn_lines_spec (text : str) :
  ∃ lines, drawn_lines text = Some lines
    ∧ lines ≠ []
    ∧ Forall (λ ln, (length ln ≤ 95)%nat ∧ Forall (λ c, linebreak c = false) ln) lines
    ∧ concat lines = filter (λ c, linebreak c = false) text.
Proof.
  destruct (splitlines_from_spec false [] text (Forall_nil_2 _)) as [Hc Hf].
  fold (splitlines text) in Hc, Hf. unfold drawn_lines.
  set (raw := match splitlines text with [] => [[]] | ls => ls end).
  assert (Hraw : concat raw = concat (splitlines text)
                 ∧ Forall (Forall (λ c, linebreak c = false)) raw ∧ raw ≠ []).
  { subst raw. destruct (splitlines text); [|done]. by repeat constructor. }
  destruct Hraw as (Hr1 & Hr2 & Hr3).
  destruct (wrap_lines_spec raw Hr2) as (wrapped & E & Hw1 & Hw2 & Hw3).
  exists (concat wrapped). rewrite E. split; [done|]. split; [by apply Hw3|].
  assert (Hall : concat (concat wrapped) = filter (λ c, linebreak c = false) text).
  { by rewrite Hw1, Hr1, Hc. }
  split; [|done].
  assert (Hnb : Forall (Forall (λ c, linebreak c = false)) (concat wrapped)).
  { apply (proj1 (Forall_concat _ _)). rewrite Hall. apply Forall_forall. intros c Hin.
    by apply list_elem_of_filter in Hin as [? _]. }
  clear -Hw2 Hnb. induction Hw2; [done|]. inversion Hnb; subst. constructor; auto.
Qed.

(** ** More on guess_downloader and PROXY_RE *)

Lemma startswith_prefix (p q s : str) :
  startswith (p ++ q) s = true → startswith p s = true.
Proof.
  revert s. induction p as [|a p IH]; intros [|c s]; simpl; try done.
  intros [-> H]%andb_true_iff. by rewrite (IH _ H).
Qed.

Lemma contains_prefix (p q s : str) :
  contains (p ++ q) s = true → contains p s = true.
Proof.
  induction s as [|c s IH]; cbn [contains].
  - rewrite !orb_false_r. apply startswith_prefix.
  - intros [H|H]%orb_true_iff; apply orb_true_iff.
    + left. by apply startswith_prefix in H.
    + right. by apply IH.
Qed.

(** X9: guess_downloader returns one of its five names; its second YouTube
    test never decides, a URL that contains youtube.com contains youtu, so a
    URL is classified youtube exactly when it contains youtu and none of
    the three markers tested before. *)
Theorem guess_downloader_youtube (url : str) :
  guess_downloader url ∈ downloader_names
  ∧ (has_marker "youtube.com" url = true → has_marker "youtu" url = true)
  ∧ (guess_downloader url = lit "youtube" ↔
     has_marker "pixeldrain.com" url = false
     ∧ has_marker "drive.google.com" url = false
     ∧ has_marker "mega.nz" url = false
     ∧ has_marker "youtu" url = true).
Proof.
  assert (Hy : has_marker "youtube.com" url = true → has_marker "youtu" url = true).
  { unfold has_marker. apply (contains_prefix (lit "youtu") (lit "be.com")). }
  rewrite guess_downloader_cases. split; [|split; [exact Hy|]].
  - unfold downloader_names.
    repeat match goal with |- context [if ?b then _ else _] => destruct b end;
      cbn [fmap list_fmap]; set_solver.
  - destruct (has_marker "pixeldrain.com" url);
      [split; [intros H; vm_compute in H; discriminate | by intros [? _]]|].
    destruct (has_marker "drive.google.com" url);
      [split; [intros H; vm_compute in H; discriminate | by intros (_ & ? & _)]|].
    destruct (has_marker "mega.nz" url);
      [split; [intros H; vm_compute in H; discriminate | by intros (_ & _ & ? & _)]|].
    destruct (has_marker "youtu" url) eqn:E1; [done|].
    destruct (has_marker "youtube.com" url); [by specialize (Hy eq_refl)|].
    cbn [orb]. split; [intros H; vm_compute in H; discriminate | by intros (_ & _ & _ & ?)].
Qed.

Lemma ci_startswith_take (q p : str) (n : nat) :
  (length q ≤ n)%nat → ci_startswith q (take n p) = ci_startswith q p.
Proof.
  revert p n. induction q as [|a q IH]; intros p n Hn; [by destruct (take n p), p|].
  destruct n as [|n]; [simpl in Hn; lia|]. destruct p as [|c p]; [done|].
  cbn [take ci_startswith]. rewrite IH by (simpl in Hn; lia). done.
Qed.

Lemma ci_startswith_app (q p r : str) :
  ci_startswith q p = true → ci_startswith q (p ++ r) = true.
Proof.
  revert p. induction q as [|a q IH]; intros [|c p]; simpl; try done.
  intros [-> H]%andb_true_iff. by apply IH.
Qed.

Lemma ci_startswith_length (q p : str) :
  ci_startswith q p = true → (length q ≤ length p)%nat.
Proof.
  revert p. induction q as [|a q IH]; intros [|c p]; simpl; try done; [lia|].
  intros [_ H]%andb_true_iff. apply IH in H. lia.
Qed.

(** X10: PROXY_RE looks at the first nine characters only, the scheme and
    its separator: what follows is not examined, so an accepted text has at
    least seven characters and stays accepted whatever is appended, and the
    bare scheme without host is accepted. *)
Theorem PROXY_RE_scheme_only (p : str) :
  PROXY_RE_match p = PROXY_RE_match (take 9 p)
  ∧ (PROXY_RE_match p = true →
     (7 ≤ length p)%nat ∧ ∀ r, PROXY_RE_match (p ++ r) = true)
  ∧ ∀ r, PROXY_RE_match (lit "http://" ++ r) = true
         ∧ PROXY_RE_match (lit "https://" ++ r) = true
         ∧ PROXY_RE_match (lit "socks5://" ++ r) = true.
Proof.
  unfold PROXY_RE_match. split; [|split].
  - by rewrite !ci_startswith_take by (vm_compute; lia).
  - intros H. split.
    + apply orb_true_iff in H as [H|H]; [apply orb_true_iff in H as [H|H]|];
        apply ci_startswith_length in H; vm_compute in H; vm_compute; lia.
    + intros r.
      apply orb_true_iff in H as [H|H]; [apply orb_true_iff in H as [H|H]|];
        apply (ci_startswith_app _ _ r) in H; rewrite H;
        by rewrite ?orb_true_r.
  - intros r. split; [|split].
    + by rewrite (ci_startswith_app _ (lit "http://") r).
    + rewrite (ci_startswith_app (lit "https://") (lit "https://") r) by done.
      by rewrite orb_true_r.
    + rewrite (ci_startswith_app (lit "socks5://") (lit "socks5://") r) by done.
      by rewrite orb_true_r.
Qed.

(** ** More on zip_paths and cleanup_old *)

(** X11: zip_paths works path by path: the archive of a list of paths is
    the archive of a first part followed by the archive of the rest, and
    the first failure is the failure of the whole. *)
Theorem zip_paths_app (f : Fs.fs) (ps qs : list path) :
  zip_paths f (ps ++ qs)
  = match zip_paths f ps with
    | Ok a => match zip_paths f qs with
              | Ok b => Ok (a ++ b)
              | Raise e => Raise e
              end
    | Raise e => Raise e
    end.
Proof.
  induction ps as [|p ps IH].
  - simpl. by destruct (zip_paths f qs).
  - cbn [app zip_paths]. rewrite IH.
    destruct (if Fs.is_dir f p then _ else _) as [a|e]; [|done]. cbn.
    destruct (zip_paths f ps) as [b|e]; [|done]. cbn.
    destruct (zip_paths f qs) as [c|e]; [|done]. cbn. by rewrite app_assoc.
Qed.

(** X12: zip_paths fails when one of the paths does not exist: no archive is
    returned, whatever the other paths are. *)
Theorem zip_paths_missing (f : Fs.fs) (ps : list path) (p : path) :
  p ∈ ps → Fs.lookup f p = None → ∃ e, zip_paths f ps = Raise e.
Proof.
  intros Hin Hp. induction ps as [|q ps IH]; [by apply elem_of_nil in Hin|].
  cbn [zip_paths]. apply elem_of_cons in Hin as [<-|Hin].
  - unfold Fs.is_dir. rewrite Hp. cbn. eauto.
  - destruct (IH Hin) as [e He]. rewrite He.
    destruct (if Fs.is_dir f q then _ else _) as [a|e']; cbn; eauto.
Qed.

Lemma zip_paths_missing_witness :
  ∃ e, zip_paths sample_fs [Path (lit "storage/1/o.bin"); Path (lit "storage/3")]
       = Raise e.
Proof.
  apply (zip_paths_missing sample_fs _ (Path (lit "storage/3"))).
  - apply elem_of_cons. right. apply elem_of_cons. by left.
  - reflexivity.
Defined.

(** X13: given files only, zip_paths names each member by the bare name of
    its file and keeps the order of the paths; files of the same name in
    different directories therefore give members of the same name. *)
Theorem zip_paths_files (f : Fs.fs) (ps : list path) :
  Forall (λ p, is_Some (file_data f p)) ps →
  zip_paths f ps
  = Ok ((λ p, (path_name p, default [] (file_data f p))) <$> ps).
Proof.
  induction 1 as [|p ps [d Hd] _ IH]; [done|].
  rewrite fmap_cons, Hd. cbn [zip_paths]. rewrite IH.
  unfold file_data in Hd. unfold Fs.is_dir.
  destruct (Fs.lookup f p) as [[mt data|]|] eqn:E; try done.
  by injection Hd as ->.
Qed.

Lemma zip_paths_files_witness :
  zip_paths sample_fs [Path (lit "storage/1/work/a.txt"); Path (lit "storage/1/o.bin");
                       Path (lit "storage/1/work/a.txt")]
  = Ok [(lit "a.txt", [1; 2]%N); (lit "o.bin", [7%N]); (lit "a.txt", [1; 2]%N)].
Proof.
  apply (zip_paths_files sample_fs).
  repeat (apply Forall_cons_2; [vm_compute; eauto|]). apply Forall_nil_2.
Defined.
